(** * A performance-gated deployment pipeline

  A shallow embedding of the four programs of the repository:

  - the load-test script ([runLoadTest], the autocannon driver with its
    p99 gate),
  - the traffic generator ([generatetraffic.js], 20 timers spaced 500 ms
    apart) together with the Express service it talks to,
  - the deployment workflow [deploy.yml] (jobs [performance-gate],
    [deploy-staging], [deploy-production], [notify-performance-issue]),
    run by a small interpreter of the GitHub Actions job and step rules,
  - the two report scripts (shell steps writing [performance-report.md]).

  The programs are embedded first, one module each; the theorems follow. *)

From stdpp Require Import base option list strings gmap pretty.
From Stdlib Require Import ZArith Lia.

Local Open Scope Z_scope.

(* ===================================================================== *)
(** ** The load-test script *)
(* ===================================================================== *)

Module LoadTest.

(** A JavaScript number the script prints and never computes with: the
    double [mantissa * 2 ^ exponent]. *)
Record number := { mantissa : Z; exponent : Z }.

Definition whole (z : Z) : number := {| mantissa := z; exponent := 0 |}.

(** What [autocannon] resolves with; only the fields the script reads.
    The totals and the average latency are printed only; [latency.p99], a
    whole number of milliseconds read off a histogram, is printed and
    compared with the threshold. *)
Record result := {
  requests_total : number;
  throughput_total : number;
  latency_average : number;
  latency_p99 : Z
}.

(** The promise returned by [autocannon(...)], once settled; a rejection is
    given by the text node prints for its error. *)
Inductive promise (A : Type) :=
| Resolved (a : A)
| Rejected (err : string).
Arguments Resolved {A} a.
Arguments Rejected {A} err.

(** What [console.log] is handed: a string, or a template literal around
    one number.  The decimal text node renders the number to is not
    modelled: the line keeps the number itself. *)
Inductive line :=
| Plain (text : string)
| Template (before : string) (n : number) (after : string).

(** The two console streams of the node process. *)
Record console := { stdout : list line; stderr : list string }.

(** How a computation of the process ends: with a value, by
    [process.exit(code)], or by a thrown error (a rejected promise). *)
Inductive signal (A : Type) :=
| Value (a : A)
| Exited (code : Z)
| Thrown (err : string).
Arguments Value {A} a.
Arguments Exited {A} code.
Arguments Thrown {A} err.

Definition proc (A : Type) : Type := console -> signal A * console.

#[export] Instance proc_ret : MRet proc := fun A a c => (Value a, c).

#[export] Instance proc_bind : MBind proc := fun A B k m c =>
  match m c with
  | (Value a, c') => k a c'
  | (Exited code, c') => (Exited code, c')
  | (Thrown e, c') => (Thrown e, c')
  end.

Definition console_log (l : line) : proc unit :=
  fun c => (Value tt, {| stdout := stdout c ++ [l]; stderr := stderr c |}).

Definition console_error (text : string) : proc unit :=
  fun c => (Value tt, {| stdout := stdout c; stderr := stderr c ++ [text] |}).

Definition process_exit {A} (code : Z) : proc A :=
  fun c => (Exited code, c).

(** [await p]: the value of a resolved promise, a throw for a rejected
    one. *)
Definition await {A} (p : promise A) : proc A :=
  fun c =>
    match p with
    | Resolved a => (Value a, c)
    | Rejected e => (Thrown e, c)
    end.

(** [m.catch(handler)]. *)
Definition catch {A} (m : proc A) (handler : string -> proc A) : proc A :=
  fun c =>
    match m c with
    | (Thrown e, c') => handler e c'
    | r => r
    end.

(** [async function runLoadTest()]; [autocannon] stands for the settled
    promise of the call [autocannon({url, connections: 10, duration: 30,
    requests: [...]})]. *)
Definition runLoadTest (autocannon : promise result) : proc unit :=
  console_log (Plain "Starting load test...");;
  result ← await autocannon;
  console_log (Plain "Load test complete");;
  console_log (Plain "Results:");;
  console_log (Template "- Requests: " (requests_total result) "");;
  console_log (Template "- Throughput: " (throughput_total result)
                 " bytes/sec");;
  console_log (Template "- Latency (avg): " (latency_average result) " ms");;
  console_log (Template "- Latency (p99): " (whole (latency_p99 result))
                 " ms");;
  (if 500 <? latency_p99 result
   then console_error "Performance threshold exceeded!";; process_exit 1
   else mret tt);;
  process_exit 0.

(** The top level of the script:
    [runLoadTest().catch(err => { console.error('Load test failed:', err);
    process.exit(1); })]. *)
Definition main (autocannon : promise result) : proc unit :=
  catch (runLoadTest autocannon)
        (fun err =>
           console_error ("Load test failed: " +:+ err);; process_exit 1).

(** A finished process: its exit status and what it printed. *)
Record finished := { exit_code : Z; output : console }.

Definition run (autocannon : promise result) : finished :=
  match main autocannon {| stdout := []; stderr := [] |} with
  | (Exited code, c) => {| exit_code := code; output := c |}
  | (Value _, c) => {| exit_code := 0; output := c |}
  | (Thrown _, c) => {| exit_code := 1; output := c |}
  end.

(** The verdict the caller of the script reads off its exit status. *)
Inductive verdict := pass | fail.

Definition gate (f : finished) : verdict :=
  if exit_code f =? 0 then pass else fail.

(** Sample results: a run whose p99 sits on the threshold (average latency
    180.25 ms), and one above (average 320.5 ms). *)
Definition on_threshold : result :=
  {| requests_total := whole 12000; throughput_total := whole 250000;
     latency_average := {| mantissa := 721; exponent := -2 |};
     latency_p99 := 500 |}.

Definition over_threshold : result :=
  {| requests_total := whole 9000; throughput_total := whole 190000;
     latency_average := {| mantissa := 641; exponent := -1 |};
     latency_p99 := 650 |}.

End LoadTest.

(* ===================================================================== *)
(** ** The Express service the traffic generator talks to *)
(* ===================================================================== *)

Module TargetService.

(** What a route answers and how long its handler holds the request. *)
Record response := { statusCode : Z; held_ms : Z }.

(** The routes of the application, in registration order:
    [app.get('/')], [app.get('/fast')], [app.get('/slow')] (answers from
    a [setTimeout(..., 2000)]), [app.get('/api/test')], [app.get('/error')]
    (throws; the error-handling middleware answers 500); any other path
    falls through to the default 404. *)
Definition handle (path : string) : response :=
  if bool_decide (path = "/") then {| statusCode := 200; held_ms := 0 |}
  else if bool_decide (path = "/fast") then {| statusCode := 200; held_ms := 0 |}
  else if bool_decide (path = "/slow") then {| statusCode := 200; held_ms := 2000 |}
  else if bool_decide (path = "/api/test") then {| statusCode := 200; held_ms := 0 |}
  else if bool_decide (path = "/error") then {| statusCode := 500; held_ms := 0 |}
  else {| statusCode := 404; held_ms := 0 |}.

End TargetService.

(* ===================================================================== *)
(** ** The traffic generator *)
(* ===================================================================== *)

Module Traffic.

Definition endpoints : list string := ["/"; "/fast"; "/slow"; "/error"].
Definition BASE_URL : string := "http://localhost:3000".

(** A draw of [Math.random()]: a double in [0, 1), that is [m / 2^53]
    for an integer mantissa [0 <= m < 2^53].  The draw is represented by
    its mantissa. *)
Definition is_random (m : Z) : Prop := 0 <= m < 2 ^ 53.

(** [Math.floor(Math.random() * endpoints.length)]: with four endpoints
    the product is exact in double arithmetic, so the index is the
    integer quotient below. *)
Definition pick (m : Z) : Z :=
  (m * Z.of_nat (length endpoints)) / 2 ^ 53.

(** A pending [setTimeout(callback, delay)]; the callback is the closure
    of the loop body over its index [i]. *)
Record timer := { delay : Z; closure_i : nat }.

(** [for (let i = 0; i < 20; i++) setTimeout(() => {...}, i * 500)]:
    the loop only registers timers and returns; it never waits for a
    response. *)
Definition timers : list timer :=
  map (fun i => {| delay := Z.of_nat i * 500; closure_i := i |}) (seq 0 20).

(** A request handed to [http.get]: [sent_at] is the time the callback
    that sends it runs; [endpoint] is [endpoints[k]], which is [undefined]
    ([None]) outside the array; [logged] is the line the callback prints
    before it sends the request. *)
Record request := {
  sent_at : Z;
  endpoint : option string;
  logged : string;
  url : string
}.

(** The timer callback, run at time [now] with the draw [m] it reads; it
    logs the endpoint, hands the request to [http.get] and returns.  The
    body does not mention the loop index. *)
Definition on_timer (now : Z) (m : Z) : request :=
  let endpoint := endpoints !! Z.to_nat (pick m) in
  {| sent_at := now;
     endpoint := endpoint;
     logged := "Requesting: " +:+ default "undefined" endpoint;
     url := BASE_URL +:+ default "undefined" endpoint |}.

(** The response callback of a request that reached the service:
    [console.log(`Status: ${res.statusCode}`)]. *)
Definition on_response (path : string) : string :=
  "Status: " +:+ pretty (TargetService.statusCode (TargetService.handle path)).

(** The runtime runs the callback of a timer at or after its delay, never
    before; [fired i] is the time the callback of the [i]-th timer runs,
    counted like the delays from the moment the loop registers them. *)
Definition after_delay (fired : nat -> Z) : Prop :=
  forall t, t ∈ timers -> delay t <= fired (closure_i t).

(** The run of the script: the callbacks run in registration order (their
    delays increase), the [i]-th at [fired i], reading the [i]-th draw of
    the random source. *)
Definition dispatches (random fired : nat -> Z) : list request :=
  map (fun t => on_timer (fired (closure_i t)) (random (closure_i t))) timers.

(** How long the service holds a request to [endpoint]. *)
Definition held (endpoint : option string) : Z :=
  match endpoint with
  | Some path => TargetService.held_ms (TargetService.handle path)
  | None => 0
  end.

(** When the response callback of the [i]-th request runs: [transit i] is
    the time between sending and that callback that the service does not
    hold the request for: the network both ways, the handling of the
    request and of the response, and what the timer of [/slow] runs late. *)
Definition answered_at (transit : nat -> Z) (i : nat) (r : request) : Z :=
  sent_at r + transit i + held (endpoint r).

(** The requests in flight at time [t]: sent, not yet answered. *)
Definition in_flight (transit : nat -> Z) (rs : list request) (t : Z)
  : list request :=
  map snd
    (filter (fun ir => sent_at ir.2 <= t < answered_at transit ir.1 ir.2)
            (imap pair rs)).

(** Sample inputs: draws of 0.5, which all pick [/slow]; draws that cycle
    through the four quarters of the unit interval; a network that adds no
    delay; callbacks that run on their delay, the earliest the runtime
    allows; and callbacks of which the first waits 226 ms for the rest of
    the script to load while the later ones run 2 ms after their delay. *)
Definition always_slow : nat -> Z := fun _ => 2 ^ 52.
Definition cycling : nat -> Z := fun i => Z.of_nat (i mod 4) * 2 ^ 51.
Definition no_transit : nat -> Z := fun _ => 0.
Definition punctual : nat -> Z := fun i => Z.of_nat i * 500.
Definition late_start : nat -> Z :=
  fun i => match i with O => 226 | S _ => Z.of_nat i * 500 + 2 end.

End Traffic.

(* ===================================================================== *)
(** ** The rules of the workflow runner *)
(* ===================================================================== *)

(** The part of GitHub Actions the deployment workflow relies on: steps run
  in order under an implicit [success()], [continue-on-error] turns a
  failed step's conclusion into success, a job starts once every job it
  needs has succeeded and its [if:] holds, and a job's outputs are read
  from its steps when it ends. *)
Module Actions.

(** The outcome of a step and the result of a job; cancellation by the
    user is left out. *)
Inductive status := Success | Failure | Skipped.

#[export] Instance status_eq_dec : EqDecision status.
Proof. solve_decision. Defined.

(** The text an expression such as [steps.x.outcome] renders to. *)
Definition status_text (s : status) : string :=
  match s with
  | Success => "success"
  | Failure => "failure"
  | Skipped => "skipped"
  end.

(** Expressions [${{ ... }}] as far as the workflow uses them. *)
Inductive expr :=
| Lit (s : string)
| StepsOutput (id name : string)     (* steps.<id>.outputs.<name> *)
| StepsOutcome (id : string)         (* steps.<id>.outcome *)
| NeedsOutput (job name : string)    (* needs.<job>.outputs.<name> *)
| GithubSha                          (* github.sha *)
| GithubActor                        (* github.actor *)
| Secret (name : string)             (* secrets.<name> *)
| Eq (a b : expr).                   (* a == b *)

Inductive value := VStr (s : string) | VBool (b : bool).

Record step_state := {
  outcome : status;      (* before continue-on-error *)
  conclusion : status;   (* after continue-on-error *)
  outputs : gmap string string
}.

Record job_state := {
  result : status;
  job_outputs : gmap string string;
  job_steps : gmap string step_state
}.

Record context := {
  github_sha : string;
  github_actor : string;
  secrets : gmap string string;
  steps : gmap string step_state;
  needs : gmap string job_state
}.

(** String comparison in expressions ignores case. *)
Definition lower_ascii (a : Ascii.ascii) : Ascii.ascii :=
  let n := Ascii.N_of_ascii a in
  if ((65 <=? n) && (n <=? 90))%N then Ascii.ascii_of_N (n + 32) else a.

Fixpoint lower (s : string) : string :=
  match s with
  | EmptyString => EmptyString
  | String a s' => String (lower_ascii a) (lower s')
  end.

Definition text (v : value) : string :=
  match v with
  | VStr s => s
  | VBool true => "true"
  | VBool false => "false"
  end.

Definition truthy (v : value) : bool :=
  match v with
  | VStr s => negb (bool_decide (s = ""))
  | VBool b => b
  end.

(** A reference to an output that was never set reads as the empty
    string; [==] compares two strings without regard to case. *)
Fixpoint eval (c : context) (e : expr) : value :=
  match e with
  | Lit s => VStr s
  | StepsOutput id name =>
      VStr (default "" (st ← steps c !! id; outputs st !! name))
  | StepsOutcome id =>
      VStr (default "" (status_text ∘ outcome <$> steps c !! id))
  | NeedsOutput job name =>
      VStr (default "" (j ← needs c !! job; job_outputs j !! name))
  | GithubSha => VStr (github_sha c)
  | GithubActor => VStr (github_actor c)
  | Secret name => VStr (default "" (secrets c !! name))
  | Eq a b =>
      match eval c a, eval c b with
      | VStr x, VStr y => VBool (bool_decide (lower x = lower y))
      | VBool x, VBool y => VBool (bool_decide (x = y))
      | _, _ => VBool false
      end
  end.

(** What a step does: call an action with inputs, or run a shell script.
    A script is given by the lines it appends to [$GITHUB_OUTPUT], as
    [name=value] pairs, after the expressions in its text have been
    substituted; the scripts of the workflow only [echo] and so always
    succeed. *)
Inductive body :=
| Uses (action : string) (with_ : list (string * expr))
| Run (script : context -> gmap string string).

Record step := {
  name : string;
  id : option string;
  continue_on_error : bool;
  does : body
}.

Record job := {
  job_id : string;
  job_needs : list string;
  job_if : option expr;
  job_steps_of : list step;
  job_outputs_of : list (string * expr)
}.

(** How a call of a third-party action ended: whether it succeeded and
    the outputs it set.  The runner learns nothing else from it. *)
Record ended := { ok : bool; set_outputs : gmap string string }.

(** The environment of a run: the event that triggered it, the secrets,
    and how each action call ends, by job and step name. *)
Record world := {
  sha : string;
  actor : string;
  secret_store : gmap string string;
  action_ends : string -> string -> ended
}.

(** A deployment marker as the marker action receives it. *)
Record marker := {
  app_name : string;
  revision : string;
  user : string;
  description : string
}.

Definition marker_action : string := "newrelic/deployment-marker-action@v1".

Definition input (c : context) (with_ : list (string * expr)) (key : string)
  : string :=
  default "" (text ∘ eval c <$> (list_to_map with_ : gmap string expr) !! key).

Definition marker_of (c : context) (with_ : list (string * expr)) : marker :=
  {| app_name := input c with_ "app_name";
     revision := input c with_ "revision";
     user := input c with_ "user";
     description := input c with_ "description" |}.

(** The state of a job while its steps run: the [steps] context, whether
    a step has failed so far, and the markers recorded. *)
Record progress := {
  ctx : context;
  failed : bool;
  recorded : list marker
}.

Definition record_step (c : context) (s : step) (st : step_state) : context :=
  match id s with
  | Some i =>
      {| github_sha := github_sha c; github_actor := github_actor c;
         secrets := secrets c; steps := <[i := st]> (steps c);
         needs := needs c |}
  | None => c
  end.

Definition run_step (w : world) (job : string) (p : progress) (s : step)
  : progress :=
  if failed p then
    (* implicit [if: success()]: an earlier step failed *)
    {| ctx := record_step (ctx p) s
                {| outcome := Skipped; conclusion := Skipped; outputs := ∅ |};
       failed := true;
       recorded := recorded p |}
  else
    let '(good, outs, marks) :=
      match does s with
      | Uses action with_ =>
          let e := action_ends w job (name s) in
          (ok e, set_outputs e,
           if bool_decide (action = marker_action) && ok e
           then [marker_of (ctx p) with_] else [])
      | Run script => (true, script (ctx p), [])
      end in
    let out := if good then Success else Failure in
    let concl := if continue_on_error s then Success else out in
    {| ctx := record_step (ctx p) s
                {| outcome := out; conclusion := concl; outputs := outs |};
       failed := bool_decide (concl = Failure);
       recorded := recorded p ++ marks |}.

Definition run_steps (w : world) (job : string) (p : progress)
  (ss : list step) : progress :=
  foldl (run_step w job) p ss.

(** The outcome of a whole run: every finished job, and the markers each
    job recorded, in order. *)
Record run_state := {
  jobs : gmap string job_state;
  markers : list (string * marker)
}.

Definition needs_succeeded (done : gmap string job_state) (j : job) : bool :=
  forallb (fun n => bool_decide (result <$> done !! n = Some Success))
          (job_needs j).

(** The context a job starts with.  [needs] holds every job that has
    finished; the jobs of the workflow only read outputs of jobs they
    need. *)
Definition start_context (w : world) (done : gmap string job_state)
  : context :=
  {| github_sha := sha w; github_actor := actor w;
     secrets := secret_store w; steps := ∅; needs := done |}.

Definition guard_holds (c : context) (j : job) : bool :=
  match job_if j with
  | Some e => truthy (eval c e)
  | None => true
  end.

Definition run_job (w : world) (r : run_state) (j : job) : run_state :=
  let c := start_context w (jobs r) in
  if needs_succeeded (jobs r) j && guard_holds c j then
    let p := run_steps w (job_id j)
               {| ctx := c; failed := false; recorded := [] |}
               (job_steps_of j) in
    {| jobs :=
         <[job_id j :=
             {| result := if failed p then Failure else Success;
                job_outputs :=
                  list_to_map
                    (prod_map (fun k => k) (text ∘ eval (ctx p))
                       <$> job_outputs_of j);
                job_steps := steps (ctx p) |}]> (jobs r);
       markers := markers r ++ (pair (job_id j) <$> recorded p) |}
  else
    {| jobs := <[job_id j := {| result := Skipped; job_outputs := ∅;
                                job_steps := ∅ |}]> (jobs r);
       markers := markers r |}.

(** Jobs are listed in an order compatible with [needs]. *)
Definition run_workflow (w : world) (js : list job) : run_state :=
  foldl (run_job w) {| jobs := ∅; markers := [] |} js.

(** The outcome of a stage in the vocabulary of the pipeline. *)
Inductive stage_outcome := skipped | ran_ok | ran_failed.

Definition stage (r : run_state) (job : string) : option stage_outcome :=
  (fun j => match result j with
            | Success => ran_ok
            | Failure => ran_failed
            | Skipped => skipped
            end) <$> jobs r !! job.

End Actions.

(* ===================================================================== *)
(** ** The deployment workflow [deploy.yml] *)
(* ===================================================================== *)

Module Deploy.
Import Actions.

Definition plain (name : string) (does : body) : step :=
  {| name := name; id := None; continue_on_error := false; does := does |}.

(** [if [[ "${{ steps.performance-check.outcome }}" == "success" ]]; then
      echo "status=pass" >> $GITHUB_OUTPUT
    else
      echo "status=fail" >> $GITHUB_OUTPUT
    fi] *)
Definition set_status (c : context) : gmap string string :=
  if bool_decide (text (eval c (StepsOutcome "performance-check")) = "success")
  then {["status" := "pass"]}
  else {["status" := "fail"]}.

(** A script that only echoes to the log. *)
Definition echo_only (c : context) : gmap string string := ∅.

Definition performance_gate : job :=
  {| job_id := "performance-gate";
     job_needs := [];
     job_if := None;
     job_outputs_of :=
       [("performance_status", StepsOutput "performance-check" "status")];
     job_steps_of :=
       [ {| name := "Check recent performance metrics";
            id := Some "performance-check";
            does :=
              Uses "newrelic/newrelic-action@v1"
                [("account_id", Secret "NEW_RELIC_ACCOUNT_ID");
                 ("api_key", Secret "NEW_RELIC_API_KEY");
                 ("query", Lit "SELECT average(duration) FROM Transaction WHERE appName = 'Express APM Demo' SINCE 1 hour ago");
                 ("threshold", Lit "300");
                 ("operator", Lit "below")];
            continue_on_error := true |};
         {| name := "Set performance status";
            id := Some "set-status";
            does := Run set_status;
            continue_on_error := false |} ] |}.

Definition mark_deployment (description : string) : step :=
  plain "Mark deployment in New Relic"
    (Uses marker_action
       [("api_key", Secret "NEW_RELIC_API_KEY");
        ("account_id", Secret "NEW_RELIC_ACCOUNT_ID");
        ("app_name", Lit "Express APM Demo");
        ("revision", GithubSha);
        ("user", GithubActor);
        ("description", Lit description)]).

Definition checkout : step :=
  plain "actions/checkout@v3" (Uses "actions/checkout@v3" []).

Definition setup_node : step :=
  plain "Setup Node.js"
    (Uses "actions/setup-node@v3" [("node-version", Lit "14")]).

Definition deploy_staging : job :=
  {| job_id := "deploy-staging";
     job_needs := ["performance-gate"];
     job_if := None;
     job_outputs_of := [];
     job_steps_of :=
       [ checkout; setup_node;
         plain "Deploy to staging" (Run echo_only);
         mark_deployment "Deployed to staging" ] |}.

Definition deploy_production : job :=
  {| job_id := "deploy-production";
     job_needs := ["performance-gate"; "deploy-staging"];
     job_if :=
       Some (Eq (NeedsOutput "performance-gate" "performance_status")
                (Lit "pass"));
     job_outputs_of := [];
     job_steps_of :=
       [ checkout; setup_node;
         plain "Deploy to production" (Run echo_only);
         mark_deployment "Deployed to production" ] |}.

Definition notify_performance_issue : job :=
  {| job_id := "notify-performance-issue";
     job_needs := ["performance-gate"];
     job_if :=
       Some (Eq (NeedsOutput "performance-gate" "performance_status")
                (Lit "fail"));
     job_outputs_of := [];
     job_steps_of := [ plain "Send notification" (Run echo_only) ] |}.

Definition deploy_yml : list job :=
  [performance_gate; deploy_staging; deploy_production;
   notify_performance_issue].

Definition pipeline (w : world) : run_state := run_workflow w deploy_yml.

(** *** Reading a run *)

Inductive decision := pass | fail.

(** The Gate Decision of a run: the verdict the [set-status] step derives
    from the outcome of the threshold check. *)
Definition gate_decision (r : run_state) : option decision :=
  j ← jobs r !! "performance-gate";
  st ← job_steps j !! "set-status";
  s ← outputs st !! "status";
  if bool_decide (s = "pass") then Some pass
  else if bool_decide (s = "fail") then Some fail
  else None.

(** The job output the guarded jobs read. *)
Definition performance_status (r : run_state) : string :=
  default "" (j ← jobs r !! "performance-gate";
              job_outputs j !! "performance_status").

(** A stage was attempted when it was not skipped. *)
Definition attempted (r : run_state) (job : string) : bool :=
  match stage r job with
  | Some ran_ok | Some ran_failed => true
  | _ => false
  end.

Definition markers_of (r : run_state) (job : string) : list marker :=
  snd <$> filter (fun jm => jm.1 = job) (markers r).

(** *** The threshold check *)

(** How the call of the check action in [performance-gate] ends. *)
Definition check (w : world) : ended :=
  action_ends w "performance-gate" "Check recent performance metrics".

(** Modelled from the spec: the threshold check is a third-party action
    ([newrelic/newrelic-action@v1]) that is not part of the repository.
    An evaluation either finds the observed value within the threshold,
    finds a breach, or faults (unknown metric name, malformed rule); the
    step succeeds in the first case only, and the runner sees nothing of
    the difference between the other two. *)
Inductive evaluation := Within | Breach | Fault.

Definition check_ends (e : evaluation) (outs : gmap string string) : ended :=
  {| ok := match e with Within => true | Breach | Fault => false end;
     set_outputs := outs |}.

(** A world in which the check ends as [e] with outputs [outs] and every
    other action call ends as in [w]. *)
Definition with_check (e : evaluation) (outs : gmap string string)
  (w : world) : world :=
  {| sha := sha w; actor := actor w; secret_store := secret_store w;
     action_ends := fun job step =>
       if bool_decide (job = "performance-gate")
          && bool_decide (step = "Check recent performance metrics")
       then check_ends e outs
       else action_ends w job step |}.

(** *** The action calls of a run *)

Definition staging_calls_ok (w : world) : bool :=
  ok (action_ends w "deploy-staging" "actions/checkout@v3")
  && ok (action_ends w "deploy-staging" "Setup Node.js")
  && ok (action_ends w "deploy-staging" "Mark deployment in New Relic").

Definition production_calls_ok (w : world) : bool :=
  ok (action_ends w "deploy-production" "actions/checkout@v3")
  && ok (action_ends w "deploy-production" "Setup Node.js")
  && ok (action_ends w "deploy-production" "Mark deployment in New Relic").

(** The output named [status] of the check step itself, empty when the
    action set none. *)
Definition check_status (w : world) : string :=
  default "" (set_outputs (check w) !! "status").

(** The marker a deploy job hands to the marker action. *)
Definition deployment_marker (w : world) (description : string) : marker :=
  {| app_name := "Express APM Demo";
     revision := sha w;
     user := actor w;
     description := description |}.

(** *** The states a run passes through *)

(** Whether the guard [performance_status == verdict] of a dependent job
    holds, given what the check step set as its [status] output. *)
Definition reads (w : world) (verdict : string) : bool :=
  bool_decide (lower (check_status w) = verdict).

(** The [performance-gate] job when it ends. *)
Definition gate_state (w : world) : job_state :=
  {| result := Success;
     job_outputs := {["performance_status" := check_status w]};
     job_steps :=
       <["set-status" :=
           {| outcome := Success; conclusion := Success;
              outputs :=
                {["status" := if ok (check w) then "pass" else "fail"]} |}]>
         {["performance-check" :=
             {| outcome := if ok (check w) then Success else Failure;
                conclusion := Success;
                outputs := set_outputs (check w) |}]} |}.

(** A deploy job that ran: it has no step ids and no outputs. *)
Definition deploy_state (calls_ok : bool) : job_state :=
  {| result := if calls_ok then Success else Failure;
     job_outputs := ∅; job_steps := ∅ |}.

Definition skipped_state : job_state :=
  {| result := Skipped; job_outputs := ∅; job_steps := ∅ |}.

(** *** Sample runs *)

(** A revision pushed by a user, with every action call succeeding and
    setting no output. *)
Definition calm : world :=
  {| sha := "4f2a9c1"; actor := "octocat"; secret_store := ∅;
     action_ends := fun _ _ => {| ok := true; set_outputs := ∅ |} |}.

(** The same world with one action call failing. *)
Definition failing (job step : string) (w : world) : world :=
  {| sha := sha w; actor := actor w; secret_store := secret_store w;
     action_ends := fun j s =>
       if bool_decide (j = job) && bool_decide (s = step)
       then {| ok := false; set_outputs := ∅ |}
       else action_ends w j s |}.

(** The check passes and the action also names its verdict in an output
    called [status]. *)
Definition passing_run : world :=
  with_check Within {["status" := "pass"; "value" := "120"]} calm.

(** The check finds a breach (an average of 450 ms against the threshold
    300) and sets its [value] output only. *)
Definition breach_run : world :=
  with_check Breach {["value" := "450"]} calm.

(** The check faults before it sets any output. *)
Definition fault_run : world := with_check Fault ∅ calm.


(** The gate passes, staging deploys, and the checkout of the production
    job fails. *)
Definition production_checkout_fails : world :=
  failing "deploy-production" "actions/checkout@v3" passing_run.

End Deploy.

(* ===================================================================== *)
(** ** The report scripts *)
(* ===================================================================== *)

(** The two [run:] steps that write [performance-report.md].  The runner
  pastes the value of each [${{ ... }}] expression into the script text
  before the shell starts; the shell then reads the clock through [$(date)]
  and writes the file.  A pasted value lands between the double quotes of
  an [echo], where the shell still expands [$...] and backquotes and where
  a double quote ends the string: the scripts are given for the values
  that hold none of these characters, which the shell leaves as they
  are. *)
Module Report.

(** The files of the workspace, by path. *)
Abbreviation files := (gmap string string).

Definition newline : string := String (Ascii.ascii_of_nat 10) EmptyString.

(** The shell commands the scripts are made of. *)
#[warnings="-register-all"] Inductive cmd :=
| EchoTo (line file : string)                    (* echo "line" > file *)
| EchoAppend (line file : string)                (* echo "line" >> file *)
| IfEq (a b : string) (then_ else_ : list cmd).  (* if [[ "a" == "b" ]] *)

Fixpoint exec (c : cmd) (fs : files) {struct c} : files :=
  let fix sequence (cs : list cmd) (fs : files) {struct cs} : files :=
    match cs with
    | [] => fs
    | c :: cs' => sequence cs' (exec c fs)
    end in
  match c with
  | EchoTo line file => <[file := line +:+ newline]> fs
  | EchoAppend line file =>
      <[file := default "" (fs !! file) +:+ line +:+ newline]> fs
  | IfEq a b then_ else_ =>
      if bool_decide (a = b) then sequence then_ fs else sequence else_ fs
  end.

Definition sh (script : list cmd) (fs : files) : files :=
  foldl (fun fs c => exec c fs) fs script.

Definition report_md : string := "performance-report.md".

(** The characters the shell acts on between double quotes: the dollar
    sign (36), the backquote (96), the backslash (92) and the double quote
    (34). *)
Definition active (a : Ascii.ascii) : bool :=
  let n := Ascii.N_of_ascii a in
  ((n =? 36) || (n =? 96) || (n =? 92) || (n =? 34))%N.

(** Text that stands for itself between double quotes. *)
Fixpoint inert (s : string) : bool :=
  match s with
  | EmptyString => true
  | String a s' => negb (active a) && inert s'
  end.

(** The step [Generate performance report] of [performance-test.yml];
    [date] is what [$(date)] prints (the shell does not expand the output
    of a command substitution again), [value] is the pasted
    [steps.apm-check.outputs.value] and [outcome] the pasted
    [steps.apm-check.outcome].  With a pasted value that is not inert the
    shell is handed another script, which is not given here ([None]). *)
Definition performance_report (date value outcome : string)
  : option (list cmd) :=
  if inert value && inert outcome then
    Some
      [ EchoTo "# Performance Test Results" report_md;
        EchoAppend "" report_md;
        EchoAppend ("Run on: " +:+ date) report_md;
        EchoAppend "" report_md;
        EchoAppend "## Response Time" report_md;
        EchoAppend ("Average: " +:+ value +:+ " ms") report_md;
        EchoAppend "" report_md;
        EchoAppend "## Status" report_md;
        IfEq outcome "success"
          [ EchoAppend "✅ Performance test passed" report_md ]
          [ EchoAppend "❌ Performance test failed" report_md ] ]
  else None.

(** The step [Generate markdown report] of [weekly-report.yml];
    [error_rate] is the pasted [steps.error-rate.outputs.value]. *)
Definition weekly_report (date error_rate : string) : option (list cmd) :=
  if inert error_rate then
    Some
      [ EchoTo "# Weekly Performance Report" report_md;
        EchoAppend ("Generated on " +:+ date) report_md;
        EchoAppend "" report_md;
        EchoAppend "## Summary" report_md;
        EchoAppend "" report_md;
        EchoAppend ("- Error rate: " +:+ error_rate +:+ "%") report_md;
        EchoAppend "" report_md;
        EchoAppend "## Top 5 Transactions by Response Time" report_md;
        EchoAppend "" report_md;
        EchoAppend "| Transaction | Average Duration (ms) |" report_md;
        EchoAppend "|-------------|----------------------|" report_md;
        EchoAppend "Parsed performance data would be displayed here in a table format" report_md;
        EchoAppend "" report_md;
        EchoAppend "## Recommendations" report_md;
        EchoAppend "" report_md;
        EchoAppend "- Review the slowest transactions" report_md;
        EchoAppend "- Investigate any error rate increases" report_md ]
  else None.

(** The document a script leaves behind. *)
Definition document (fs : files) : option string := fs !! report_md.

(** The text [echo] builds up line by line. *)
Definition lines (ls : list string) : string :=
  foldl (fun text l => text +:+ l +:+ newline) "" ls.

(** The lines of the two reports. *)
Definition performance_lines (date value outcome : string) : list string :=
  [ "# Performance Test Results"; "";
    "Run on: " +:+ date; "";
    "## Response Time";
    "Average: " +:+ value +:+ " ms"; "";
    "## Status";
    if bool_decide (outcome = "success")
    then "✅ Performance test passed"
    else "❌ Performance test failed" ].

Definition weekly_lines (date error_rate : string) : list string :=
  [ "# Weekly Performance Report";
    "Generated on " +:+ date; "";
    "## Summary"; "";
    "- Error rate: " +:+ error_rate +:+ "%"; "";
    "## Top 5 Transactions by Response Time"; "";
    "| Transaction | Average Duration (ms) |";
    "|-------------|----------------------|";
    "Parsed performance data would be displayed here in a table format"; "";
    "## Recommendations"; "";
    "- Review the slowest transactions";
    "- Investigate any error rate increases" ].

End Report.

(* ===================================================================== *)
(** ** The Express application, layer by layer *)
(* ===================================================================== *)

(** The second half of [generatetraffic.js]: the application as the stack
    of layers it registers, and the way the Express router walks that
    stack for a request of any method.  Whether a route path matches the
    path of a request (case, trailing slash, query string) is Express's
    own and is taken as a parameter [matches]. *)
Module ExpressApp.

(** A JSON number: an integer, or a draw [m / 2^53] of [Math.random()]
    given by its mantissa. *)
Inductive number := Int (z : Z) | Draw (m : Z).

#[warnings="-register-all"] Inductive json :=
| JString (s : string)
| JNumber (n : number)
| JObject (fields : list (string * json))
| JArray (items : list json).

(** What a response carries: [res.send(text)], [res.json(value)], the page
    of the final handler, the methods the router lists in its own reply to
    an [OPTIONS] request, or nothing (every reply to a [HEAD] request). *)
Inductive payload :=
| Text (s : string)
| Json (j : json)
| DefaultPage
| Allow (methods : list string)
| NoBody.

Record response := { statusCode : Z; sent : payload; after_ms : Z }.

(** A request as the application receives it: its method, its URL, and
    its cache validators ([If-None-Match], [If-Modified-Since]) by what
    they decide: [revalidates p] holds when they match the entity tag
    Express derives from a reply carrying [p], so that the client is told
    that what it holds is still good. *)
Record request := {
  method : string;
  url : string;
  revalidates : payload -> bool
}.

(** What [console.error] is handed by the error handler: the error object
    itself, of which node prints the message and the stack. *)
Inductive shown := ErrorObject (message : string).

(** How a handler ends: it responds, it throws, or it calls [next()]. *)
Inductive reply := Respond (r : response) | Throw (message : string) | Next.

Inductive layer :=
| Get (path : string) (handler : request -> (nat -> Z) -> reply)
| Use (handler : request -> list string * reply)
| UseError (handler : string -> request -> list shown * reply).

(** [for (let i = 0; i < 1000; i++)
      result.push({ id: i, value: Math.random() })]. *)
Definition api_test_result (random : nat -> Z) : list json :=
  (fun i => JObject [("id", JNumber (Int (Z.of_nat i)));
                     ("value", JNumber (Draw (random i)))]) <$> seq 0 1000.

Definition ok_after (ms : Z) (p : payload) : reply :=
  Respond {| statusCode := 200; sent := p; after_ms := ms |}.

(** The layers in the order the script registers them. *)
Definition app : list layer :=
  [ Get "/" (fun _ _ => ok_after 0 (Text "Hello World!"));
    Get "/fast" (fun _ _ =>
      ok_after 0 (Json (JObject [("status", JString "success");
                                 ("message", JString "This is a fast endpoint")])));
    Get "/slow" (fun _ _ =>
      ok_after 2000 (Json (JObject [("status", JString "success");
                                    ("message", JString "This is a slow endpoint")])));
    Get "/api/test" (fun _ random =>
      ok_after 0 (Json (JArray (api_test_result random))));
    Get "/error" (fun _ _ => Throw "This is a demonstration error");
    UseError (fun message _ =>
      ([ErrorObject message],
       Respond {| statusCode := 500;
                  sent := Json (JObject [("status", JString "error");
                                         ("message", JString message)]);
                  after_ms := 0 |}));
    Use (fun req =>
      (["Received request: " +:+ method req +:+ " " +:+ url req], Next)) ].

(** The paths of the routes of a stack, in order. *)
Definition routes (stack : list layer) : list string :=
  omap (fun l => match l with Get path _ => Some path | _ => None end) stack.

(** A request once served: the response, the lines the handlers wrote to
    the console and what they handed to the error console. *)
Record served := { answer : response; out : list string; err : list shown }.

(** A route registered with [app.get] handles [GET], and [HEAD] in its
    place. *)
Definition handles (m : string) : bool :=
  bool_decide (m = "GET") || bool_decide (m = "HEAD").

(** What such a route adds to the methods listed for an [OPTIONS] request:
    [GET] and [HEAD], each unless it is listed already. *)
Definition append_methods (options : list string) : list string :=
  foldl (fun listed m => if bool_decide (m ∈ listed) then listed
                         else listed ++ [m])
        options ["GET"; "HEAD"].

Section Dispatch.
Variable matches : string -> string -> bool.
Variable random : nat -> Z.
Variable req : request.

(** The body of a reply is left out when the request is a [HEAD]. *)
Definition carried (p : payload) : payload :=
  if bool_decide (method req = "HEAD") then NoBody else p.

(** [res.send] turns a reply with a status from 200 to 299 to a [GET] or
    [HEAD] request into 304 without a body when the validators of the
    request match it. *)
Definition not_modified (a : response) : bool :=
  handles (method req)
  && (200 <=? statusCode a) && (statusCode a <? 300)
  && revalidates req (sent a).

(** [res.send] and [res.json], called by a handler with the reply [a]. *)
Definition reply_with (a : response) : response :=
  if not_modified a
  then {| statusCode := 304; sent := NoBody; after_ms := after_ms a |}
  else {| statusCode := statusCode a; sent := carried (sent a);
          after_ms := after_ms a |}.

(** The router walks the stack.  While no error is pending it runs the
    plain middleware and the first route whose path matches and which
    handles the method, and skips the error handlers; a route whose path
    matches an [OPTIONS] request it does not handle adds its methods to
    the list [options].  Once a handler has thrown, everything but the
    error handlers is skipped.  When the stack runs out, an [OPTIONS]
    request for which methods were listed is answered 200 with that list;
    any other request is answered 404, or 500 when an error is pending
    (the application's error handler answers every error, so the stack of
    [app] never runs out with one). *)
Fixpoint dispatch (pending : option string) (options o : list string)
  (e : list shown) (stack : list layer) : served :=
  let continue (r : reply) (o : list string) (e : list shown)
               (rest : list layer) : served :=
    match r with
    | Respond a => {| answer := reply_with a; out := o; err := e |}
    | Throw message => dispatch (Some message) options o e rest
    | Next => dispatch None options o e rest
    end in
  match stack with
  | [] =>
      {| answer :=
           match pending, options with
           | Some _, _ =>
               {| statusCode := 500; sent := carried DefaultPage; after_ms := 0 |}
           | None, _ :: _ =>
               {| statusCode := 200; sent := Allow options; after_ms := 0 |}
           | None, [] =>
               {| statusCode := 404; sent := carried DefaultPage; after_ms := 0 |}
           end;
         out := o; err := e |}
  | Get path handler :: rest =>
      match pending with
      | None =>
          if matches path (url req) then
            if handles (method req) then continue (handler req random) o e rest
            else if bool_decide (method req = "OPTIONS")
                 then dispatch None (append_methods options) o e rest
                 else dispatch None options o e rest
          else dispatch None options o e rest
      | Some _ => dispatch pending options o e rest
      end
  | Use handler :: rest =>
      match pending with
      | None => let '(lines, r) := handler req in continue r (o ++ lines) e rest
      | Some _ => dispatch pending options o e rest
      end
  | UseError handler :: rest =>
      match pending with
      | None => dispatch None options o e rest
      | Some message =>
          let '(shown, r) := handler message req in
          continue r o (e ++ shown) rest
      end
  end.

Definition serve : served := dispatch None [] [] [] app.

(** The first registered route whose path matches the request. *)
Definition first_match : option string :=
  List.find (fun path => matches path (url req)) (routes app).

End Dispatch.

(** Matching a path letter by letter, and the request [http.get] sends for
    a path, which carries no validators. *)
Definition exact (path url : string) : bool := bool_decide (url = path).

Definition get (path : string) : request :=
  {| method := "GET"; url := path; revalidates := fun _ => false |}.

End ExpressApp.

(* ===================================================================== *)
(** ** The report workflows *)
(* ===================================================================== *)

(** The workflows [performance-test.yml] and [weekly-report.yml]: one job
    each, whose steps also run programs of the runner and read and write
    the files of the workspace.  Steps follow the rules of [Actions]; a
    [run:] step is a script of the default shell [bash -e], which stops at
    the first command that fails.  A script into which the runner pastes a
    value is given for the values that cannot change what the script is;
    a job that comes to run such a script with another value is not given
    ([None]). *)
Module Workspace.
Import Actions.

(** Where a job runs: the runner's side of the run, what an action call or
    a program started by a step does to the files of the workspace, the
    exit status of [npm ci], how the [autocannon] call of the load test
    settles, whether the application is still alive when the script comes
    to kill it, and what [$(date)] prints. *)
Record site := {
  runner : world;
  touches : string -> Report.files -> Report.files;
  npm_ci : Z;
  autocannon : LoadTest.promise LoadTest.result;
  app_alive : bool;
  date : string
}.

(** *** The shell of a [run:] step *)

Inductive command :=
| Background (program : string)    (* program & *)
| AssignPid                        (* APP_PID=$! *)
| Echo (line : string)
| Sleep (seconds : Z)
| NpmRun (script : string)         (* npm run script *)
| KillPid.                         (* kill $APP_PID *)

(** What the shell knows of the application it started. *)
Record shell := { started : bool; app_pid : bool; killed : bool }.

(** The scripts of [package.json]: [start] is the application,
    [load-test] is [node load-test.js], whose exit status [npm run] hands
    on; [npm run] fails for a script it does not know. *)
Definition npm_run (s : site) (script : string) : Z :=
  if bool_decide (script = "load-test")
  then LoadTest.exit_code (LoadTest.run (autocannon s))
  else if bool_decide (script = "start") then 0
  else 1.

Definition run_command (s : site) (c : command) (sh : shell) : Z * shell :=
  match c with
  | Background _ =>
      (0, {| started := true; app_pid := app_pid sh; killed := killed sh |})
  | AssignPid =>
      (0, {| started := started sh; app_pid := started sh; killed := killed sh |})
  | Echo _ | Sleep _ => (0, sh)
  | NpmRun script => (npm_run s script, sh)
  | KillPid =>
      if app_pid sh && app_alive s
      then (0, {| started := started sh; app_pid := app_pid sh; killed := true |})
      else (1, sh)
  end.

(** [bash -e]: the exit status of a script is that of the first command
    that fails, and 0 when none does. *)
Fixpoint bash_e (s : site) (script : list command) (sh : shell) : Z * shell :=
  match script with
  | [] => (0, sh)
  | c :: rest =>
      let '(code, sh') := run_command s c sh in
      if code =? 0 then bash_e s rest sh' else (code, sh')
  end.

(** The script of the step [Run application with load test]. *)
Definition run_application_with_load_test : list command :=
  [ Background "npm start";
    AssignPid;
    Echo "Started app with PID: $APP_PID";
    Sleep 10;
    NpmRun "load-test";
    KillPid ].

Definition fresh_shell : shell :=
  {| started := false; app_pid := false; killed := false |}.

(** *** Steps that work on the workspace *)

Inductive work :=
| Action (action : string) (with_ : list (string * expr))
| Script (run : site -> context -> Report.files -> option (Z * Report.files)).

Record wstep := {
  step_name : string;
  step_id : option string;
  step_continue_on_error : bool;
  step_work : work
}.

Definition upload_action : string := "actions/upload-artifact@v3".

(** A job while its steps run: the [steps] context, whether a step has
    failed, the files of the workspace and the artifacts uploaded, by name
    with their content. *)
Record session := {
  s_ctx : context;
  s_failed : bool;
  s_files : Report.files;
  s_artifacts : list (string * string)
}.

Definition remember (c : context) (i : option string) (st : step_state)
  : context :=
  match i with
  | Some i =>
      {| github_sha := github_sha c; github_actor := github_actor c;
         secrets := secrets c; steps := <[i := st]> (steps c);
         needs := needs c |}
  | None => c
  end.

(** The upload action stores the file at [path] under [name]; when there
    is no such file it warns and stores nothing. *)
Definition upload (c : context) (with_ : list (string * expr))
  (fs : Report.files) : list (string * string) :=
  match fs !! input c with_ "path" with
  | Some content => [(input c with_ "name", content)]
  | None => []
  end.

Definition run_wstep (s : site) (job : string) (p : session) (st : wstep)
  : option session :=
  if s_failed p then
    Some
      {| s_ctx := remember (s_ctx p) (step_id st)
                    {| outcome := Skipped; conclusion := Skipped; outputs := ∅ |};
         s_failed := true;
         s_files := s_files p;
         s_artifacts := s_artifacts p |}
  else
    let ran : option (bool * gmap string string * Report.files
                      * list (string * string)) :=
      match step_work st with
      | Action action with_ =>
          let e := action_ends (runner s) job (step_name st) in
          Some (ok e, set_outputs e, touches s (step_name st) (s_files p),
                if bool_decide (action = upload_action) && ok e
                then upload (s_ctx p) with_ (s_files p) else [])
      | Script run =>
          match run s (s_ctx p) (s_files p) with
          | Some (code, fs) => Some (code =? 0, ∅, fs, [])
          | None => None
          end
      end in
    match ran with
    | Some (good, outs, fs, stored) =>
        let out := if good then Success else Failure in
        let concl := if step_continue_on_error st then Success else out in
        Some
          {| s_ctx := remember (s_ctx p) (step_id st)
                        {| outcome := out; conclusion := concl;
                           outputs := outs |};
             s_failed := bool_decide (concl = Failure);
             s_files := fs;
             s_artifacts := s_artifacts p ++ stored |}
    | None => None
    end.

(** A job without [needs], from the files the workspace holds. *)
Definition run_single_job (s : site) (job : string) (fs : Report.files)
  (ss : list wstep) : option session :=
  foldl (fun running st => p ← running; run_wstep s job p st)
    (Some {| s_ctx := start_context (runner s) ∅; s_failed := false;
             s_files := fs; s_artifacts := [] |}) ss.

Definition action_step (name action : string) (with_ : list (string * expr))
  : wstep :=
  {| step_name := name; step_id := None; step_continue_on_error := false;
     step_work := Action action with_ |}.

Definition script_step (name : string)
  (run : site -> context -> Report.files -> option (Z * Report.files))
  : wstep :=
  {| step_name := name; step_id := None; step_continue_on_error := false;
     step_work := Script run |}.

(** *** [performance-test.yml] *)

(** The file the here-document of [Create New Relic config] writes; the
    runner has pasted the secret into the text, the quoted delimiter keeps
    the shell from expanding anything. *)
Definition ci_config (license_key : string) : string :=
  Report.lines
    [ "'use strict'";
      "";
      "exports.config = {";
      "app_name: ['Express APM Demo - CI'],";
      "license_key: '" +:+ license_key +:+ "',";
      "logging: {";
      "    level: 'info'";
      "},";
      "distributed_tracing: {";
      "    enabled: true";
      "},";
      "allow_all_headers: true";
      "}" ].

(** A here-document ends at the first line that is its delimiter; text
    without a line feed (10) pasted into one of its lines cannot end it. *)
Fixpoint single_line (s : string) : bool :=
  match s with
  | EmptyString => true
  | String a s' => negb (Ascii.N_of_ascii a =? 10)%N && single_line s'
  end.

Definition performance_test : list wstep :=
  [ action_step "actions/checkout@v3" "actions/checkout@v3" [];
    action_step "Setup Node.js" "actions/setup-node@v3"
      [("node-version", Lit "14"); ("cache", Lit "npm")];
    script_step "Install dependencies"
      (fun s _ fs => Some (npm_ci s, touches s "Install dependencies" fs));
    script_step "Create New Relic config"
      (fun _ c fs =>
         let key := text (eval c (Secret "NEW_RELIC_LICENSE_KEY")) in
         if single_line key
         then Some (0, <["newrelic.js" := ci_config key]> fs)
         else None);
    script_step "Run application with load test"
      (fun s _ fs =>
         Some ((bash_e s run_application_with_load_test fresh_shell).1,
               touches s "Run application with load test" fs));
    {| step_name := "Check APM metrics";
       step_id := Some "apm-check";
       step_continue_on_error := false;
       step_work :=
         Action "newrelic/newrelic-action@v1"
           [("account_id", Secret "NEW_RELIC_ACCOUNT_ID");
            ("api_key", Secret "NEW_RELIC_API_KEY");
            ("query", Lit "SELECT average(duration) FROM Transaction WHERE appName = 'Express APM Demo - CI' SINCE 5 minutes ago");
            ("threshold", Lit "500");
            ("operator", Lit "below")] |};
    script_step "Generate performance report"
      (fun s c fs =>
         script ← Report.performance_report (date s)
                    (text (eval c (StepsOutput "apm-check" "value")))
                    (text (eval c (StepsOutcome "apm-check")));
         Some (0, Report.sh script fs));
    action_step "Upload performance report" upload_action
      [("name", Lit "performance-report");
       ("path", Lit "performance-report.md")] ].

(** *** [weekly-report.yml] *)

Definition generate_report : list wstep :=
  [ action_step "actions/checkout@v3" "actions/checkout@v3" [];
    {| step_name := "Fetch performance data";
       step_id := Some "perf-avg";
       step_continue_on_error := false;
       step_work :=
         Action "newrelic/newrelic-action@v1"
           [("account_id", Secret "NEW_RELIC_ACCOUNT_ID");
            ("api_key", Secret "NEW_RELIC_API_KEY");
            ("query", Lit "SELECT average(duration) FROM Transaction WHERE appName = 'Express APM Demo' FACET name LIMIT 5 SINCE 1 week ago");
            ("output_type", Lit "json")] |};
    {| step_name := "Fetch error rate";
       step_id := Some "error-rate";
       step_continue_on_error := false;
       step_work :=
         Action "newrelic/newrelic-action@v1"
           [("account_id", Secret "NEW_RELIC_ACCOUNT_ID");
            ("api_key", Secret "NEW_RELIC_API_KEY");
            ("query", Lit "SELECT percentage(count(*), WHERE error IS true) FROM Transaction WHERE appName = 'Express APM Demo' SINCE 1 week ago")] |};
    script_step "Generate markdown report"
      (fun s c fs =>
         script ← Report.weekly_report (date s)
                    (text (eval c (StepsOutput "error-rate" "value")));
         Some (0, Report.sh script fs));
    action_step "Upload performance report" upload_action
      [("name", Lit "weekly-performance-report");
       ("path", Lit "performance-report.md")] ].

(** *** Reading a site *)

Definition call (s : site) (job step : string) : ended :=
  action_ends (runner s) job step.

(** The [value] output of a step of the check action, empty when unset. *)
Definition value_of (s : site) (job step : string) : string :=
  default "" (set_outputs (call s job step) !! "value").

(** The secret [NEW_RELIC_LICENSE_KEY], empty when unset. *)
Definition license_key (s : site) : string :=
  default "" (secret_store (runner s) !! "NEW_RELIC_LICENSE_KEY").

(** Whether the load test of a site passes its gate. *)
Definition load_test_passes (s : site) : bool :=
  LoadTest.exit_code (LoadTest.run (autocannon s)) =? 0.

(** Whether every step of [performance-test] succeeds. *)
Definition performance_test_succeeds (s : site) : bool :=
  ok (call s "performance-test" "actions/checkout@v3")
  && ok (call s "performance-test" "Setup Node.js")
  && (npm_ci s =? 0)
  && ((bash_e s run_application_with_load_test fresh_shell).1 =? 0)
  && ok (call s "performance-test" "Check APM metrics")
  && ok (call s "performance-test" "Upload performance report").

(** Whether every step of [generate-report] succeeds. *)
Definition generate_report_succeeds (s : site) : bool :=
  ok (call s "generate-report" "actions/checkout@v3")
  && ok (call s "generate-report" "Fetch performance data")
  && ok (call s "generate-report" "Fetch error rate")
  && ok (call s "generate-report" "Upload performance report").

(** A sample site: every call succeeds, the check reports an average of
    120 ms, and the load test ends on the threshold. *)
Definition quiet : site :=
  {| runner :=
       {| sha := "4f2a9c1"; actor := "octocat";
          secret_store := {["NEW_RELIC_LICENSE_KEY" := "0123456789"]};
          action_ends := fun _ _ =>
            {| ok := true; set_outputs := {["value" := "120"]} |} |};
     touches := fun _ fs => fs;
     npm_ci := 0;
     autocannon := LoadTest.Resolved LoadTest.on_threshold;
     app_alive := true;
     date := "Mon Nov  2 12:00:00 UTC 2026" |}.

End Workspace.

(* ===================================================================== *)
(** ** Facts about the load-test script *)
(* ===================================================================== *)

Module LoadTestFacts.
Import LoadTest.

(** Unfold the process monad. *)
Ltac run_script :=
  unfold run, main, catch, runLoadTest, mbind, proc_bind, await,
    console_log, console_error, process_exit, mret, proc_ret; cbn.

Lemma exit_code_resolved (r : result) :
  exit_code (run (Resolved r)) = if 500 <? latency_p99 r then 1 else 0.
Proof. run_script. destruct (500 <? latency_p99 r); reflexivity. Qed.

Lemma stderr_resolved (r : result) :
  stderr (output (run (Resolved r)))
  = if 500 <? latency_p99 r then ["Performance threshold exceeded!"] else [].
Proof. run_script. destruct (500 <? latency_p99 r); reflexivity. Qed.

Lemma run_rejected (err : string) :
  exit_code (run (Rejected err)) = 1
  /\ stderr (output (run (Rejected err))) = ["Load test failed: " +:+ err]
  /\ stdout (output (run (Rejected err))) = [Plain "Starting load test..."].
Proof. run_script. auto. Qed.

(** C1, as stated, at the threshold: an observed p99 of exactly 500 is not
    strictly below 500, yet the script exits with status 0 and the gate
    reads pass. *)
Lemma gate_passes_on_threshold :
  latency_p99 on_threshold = 500
  /\ ~ latency_p99 on_threshold < 500
  /\ exit_code (run (Resolved on_threshold)) = 0
  /\ gate (run (Resolved on_threshold)) = pass.
Proof. repeat split; try reflexivity. cbn. lia. Qed.

(** C1, amended: the gate of the load test passes exactly when the observed
    p99 latency does not exceed the threshold 500; in particular an observed
    value of exactly 500 passes, and the script exits with status 1 exactly
    when the value is above 500. *)
Theorem gate_passes_iff_not_above_threshold (r : result) :
  (gate (run (Resolved r)) = pass <-> latency_p99 r <= 500)
  /\ (gate (run (Resolved r)) = fail <-> 500 < latency_p99 r)
  /\ (exit_code (run (Resolved r)) = 1 <-> 500 < latency_p99 r).
Proof.
  unfold gate. rewrite exit_code_resolved.
  destruct (Z.ltb_spec 500 (latency_p99 r)); cbn;
    repeat split; intros; try lia; try discriminate; reflexivity.
Qed.

(** C9, as stated: the process that could not run the load test at all and
    the process that found a breach end with the same exit status, the error
    status 1, so the caller cannot tell them apart by it, and the breach is
    not reported as a normal outcome. *)
Lemma failure_and_breach_share_exit_status :
  exit_code (run (Rejected "connect ECONNREFUSED 127.0.0.1:3000")) = 1
  /\ exit_code (run (Resolved over_threshold)) = 1
  /\ gate (run (Rejected "connect ECONNREFUSED 127.0.0.1:3000"))
     = gate (run (Resolved over_threshold)).
Proof. repeat split. Qed.

(** C9, amended: a load test that cannot run and a load test that breaches
    the threshold both end the process with exit status 1; they differ only
    in the line written to standard error, and only the failed run stops
    before any result is printed. *)
Theorem failure_and_breach_differ_in_message_only (err : string) (r : result) :
  500 < latency_p99 r ->
  exit_code (run (Rejected err)) = 1
  /\ exit_code (run (Resolved r)) = 1
  /\ stderr (output (run (Rejected err))) = ["Load test failed: " +:+ err]
  /\ stderr (output (run (Resolved r))) = ["Performance threshold exceeded!"]
  /\ stderr (output (run (Rejected err))) <> stderr (output (run (Resolved r)))
  /\ stdout (output (run (Rejected err))) = [Plain "Starting load test..."].
Proof.
  intros Habove.
  destruct (run_rejected err) as (Hcode & Herr & Hout).
  rewrite exit_code_resolved, stderr_resolved, Hcode, Herr, Hout.
  apply Z.ltb_lt in Habove as ->.
  repeat split. intros H. discriminate H.
Qed.

Lemma failure_and_breach_differ_in_message_only_witness :
  exit_code (run (Rejected "spawn ENOENT")) = 1
  /\ exit_code (run (Resolved over_threshold)) = 1
  /\ stderr (output (run (Rejected "spawn ENOENT")))
     = ["Load test failed: " +:+ "spawn ENOENT"]
  /\ stderr (output (run (Resolved over_threshold)))
     = ["Performance threshold exceeded!"]
  /\ stderr (output (run (Rejected "spawn ENOENT")))
     <> stderr (output (run (Resolved over_threshold)))
  /\ stdout (output (run (Rejected "spawn ENOENT"))) = [Plain "Starting load test..."].
Proof.
  apply (failure_and_breach_differ_in_message_only "spawn ENOENT" over_threshold).
  cbn. lia.
Defined.

End LoadTestFacts.

(* ===================================================================== *)
(** ** Facts about the traffic generator *)
(* ===================================================================== *)

Module TrafficFacts.
Import Traffic.

(** The timers are registered with increasing delays, so they fire in the
    order of the loop. *)
Lemma timers_lookup (i : nat) :
  (i < 20)%nat ->
  timers !! i = Some {| delay := Z.of_nat i * 500; closure_i := i |}.
Proof.
  intros Hi. unfold timers.
  rewrite list_lookup_fmap, lookup_seq_lt by done. reflexivity.
Qed.

Lemma dispatches_lookup (random fired : nat -> Z) (i : nat) :
  (i < 20)%nat ->
  dispatches random fired !! i = Some (on_timer (fired i) (random i)).
Proof.
  intros Hi. unfold dispatches.
  rewrite list_lookup_fmap, timers_lookup by done. reflexivity.
Qed.

(** Callbacks that run on their delay send consecutive requests 500 ms
    apart. *)
Lemma dispatch_spacing (random : nat -> Z) (i : nat) (r r' : request) :
  (S i < 20)%nat ->
  dispatches random punctual !! i = Some r ->
  dispatches random punctual !! S i = Some r' ->
  sent_at r' - sent_at r = 500.
Proof.
  intros Hi. rewrite !dispatches_lookup by lia.
  intros [= <-] [= <-]. unfold punctual. cbn [on_timer sent_at]. lia.
Qed.

(** Both sample schedules run every callback at or after its delay. *)
Lemma sample_schedules_after_delay : after_delay punctual /\ after_delay late_start.
Proof.
  split; intros t Ht; apply list_elem_of_fmap in Ht as (i & -> & _);
    cbn [delay closure_i]; unfold punctual, late_start; [lia|].
  destruct i; lia.
Qed.

(** No callback runs before the delay of its timer. *)
Lemma after_delay_lookup (fired : nat -> Z) (i : nat) :
  after_delay fired -> (i < 20)%nat -> Z.of_nat i * 500 <= fired i.
Proof.
  intros Hafter Hi.
  apply (Hafter {| delay := Z.of_nat i * 500; closure_i := i |}).
  apply list_elem_of_lookup. exists i. by apply timers_lookup.
Qed.

(** The index picked from a draw is the quarter of the unit interval the
    draw falls in. *)
Lemma pick_quarter (m k : Z) :
  is_random m ->
  pick m = k <-> k * 2 ^ 51 <= m < (k + 1) * 2 ^ 51.
Proof.
  unfold is_random, pick. cbn [length endpoints]. intros Hm.
  change (Z.of_nat 4) with 4.
  replace (m * 4 / 2 ^ 53) with (m / 2 ^ 51).
  2:{ change (2 ^ 53) with (2 ^ 51 * 4).
      rewrite Z.div_mul_cancel_r; lia. }
  split.
  - intros <-. pose proof (Z.div_mod m (2 ^ 51) ltac:(lia)).
    pose proof (Z.mod_pos_bound m (2 ^ 51) ltac:(lia)). lia.
  - intros Hk. symmetry. apply (Z.div_unique m (2 ^ 51) k (m - k * 2 ^ 51)); lia.
Qed.

Lemma pick_range (m : Z) : is_random m -> 0 <= pick m < 4.
Proof.
  intros Hm. pose proof (proj1 (pick_quarter m (pick m) Hm) eq_refl) as Hq.
  unfold is_random in Hm. lia.
Qed.

Lemma endpoints_total (k : Z) :
  0 <= k < 4 -> is_Some (endpoints !! Z.to_nat k).
Proof.
  intros Hk.
  assert (k = 0 \/ k = 1 \/ k = 2 \/ k = 3) as [-> | [-> | [-> | ->]]] by lia;
    cbn; eauto.
Qed.

(** C7, as stated: when every draw picks [/slow] and the network adds no
    delay, the requests sent at 0, 500, 1000 and 1500 ms are all in flight
    at 1500 ms, so more than one request is in flight at a time; the same
    four requests are in flight at 1502 ms when the callbacks run late. *)
Lemma several_requests_in_flight :
  (forall i, is_random (always_slow i))
  /\ endpoint <$> in_flight no_transit (dispatches always_slow punctual) 1500
     = [Some "/slow"; Some "/slow"; Some "/slow"; Some "/slow"]
  /\ sent_at <$> in_flight no_transit (dispatches always_slow punctual) 1500
     = [0; 500; 1000; 1500]
  /\ ~ (length (in_flight no_transit (dispatches always_slow punctual) 1500)
        <= 1)%nat
  /\ sent_at <$> in_flight no_transit (dispatches always_slow late_start) 1502
     = [226; 502; 1002; 1502].
Proof.
  split; [intros i; unfold is_random, always_slow; lia|].
  split; [vm_compute; reflexivity|].
  split; [vm_compute; reflexivity|].
  split; [vm_compute; lia|].
  vm_compute; reflexivity.
Qed.

(** C7, amended: in trickle mode the driver registers its 20 dispatches up
    front, 500 ms apart (the [i]-th with the delay [i * 500] ms, whatever
    the draws and whether or not earlier requests have been answered); the
    [i]-th request is sent when the callback of the [i]-th timer runs, not
    before [i * 500] ms, and it requests the endpoint whose index is the
    quarter of the unit interval its random draw falls in, so that each of
    the four configured paths is chosen on a range of draws of the same
    size. *)
Theorem trickle_schedule (random fired : nat -> Z) :
  (forall i, is_random (random i)) ->
  length (dispatches random fired) = 20%nat
  /\ forall i, (i < 20)%nat ->
       exists tm r path,
         timers !! i = Some tm
         /\ delay tm = Z.of_nat i * 500
         /\ dispatches random fired !! i = Some r
         /\ sent_at r = fired i
         /\ (after_delay fired -> Z.of_nat i * 500 <= sent_at r)
         /\ endpoint r = Some path
         /\ endpoints !! Z.to_nat (pick (random i)) = Some path
         /\ url r = BASE_URL +:+ path
         /\ forall k, pick (random i) = k
                      <-> k * 2 ^ 51 <= random i < (k + 1) * 2 ^ 51.
Proof.
  intros Hrandom. split; [reflexivity|].
  intros i Hi.
  destruct (endpoints_total (pick (random i)) (pick_range _ (Hrandom i)))
    as [path Hpath].
  exists {| delay := Z.of_nat i * 500; closure_i := i |},
         (on_timer (fired i) (random i)), path.
  split; [by apply timers_lookup|]. split; [reflexivity|].
  split; [by apply dispatches_lookup|].
  unfold on_timer; cbn [sent_at endpoint url]. rewrite Hpath.
  split; [reflexivity|].
  split; [intros Hafter; by apply after_delay_lookup|].
  do 3 (split; [reflexivity|]).
  intros k. by apply pick_quarter.
Qed.

Lemma trickle_schedule_witness :
  length (dispatches cycling late_start) = 20%nat
  /\ forall i, (i < 20)%nat ->
       exists tm r path,
         timers !! i = Some tm
         /\ delay tm = Z.of_nat i * 500
         /\ dispatches cycling late_start !! i = Some r
         /\ sent_at r = late_start i
         /\ (after_delay late_start -> Z.of_nat i * 500 <= sent_at r)
         /\ endpoint r = Some path
         /\ endpoints !! Z.to_nat (pick (cycling i)) = Some path
         /\ url r = BASE_URL +:+ path
         /\ forall k, pick (cycling i) = k
                      <-> k * 2 ^ 51 <= cycling i < (k + 1) * 2 ^ 51.
Proof.
  apply (trickle_schedule cycling late_start).
  intros i. unfold is_random, cycling.
  pose proof (Nat.mod_upper_bound i 4 ltac:(lia)). lia.
Defined.

End TrafficFacts.

(* ===================================================================== *)
(** ** Facts about the deployment workflow *)
(* ===================================================================== *)

Module DeployFacts.
Import Actions Deploy.

(** Decide the closed comparisons left in the goal. *)
Ltac eval_decide :=
  repeat match goal with
    | |- context [bool_decide ?P] =>
        let b := eval vm_compute in (bool_decide P) in
        match b with
        | true => change (bool_decide P) with true
        | false => change (bool_decide P) with false
        end
    end.

(** Run the interpreter as far as the goal determines it, leaving the
    finite maps alone. *)
Ltac step_through :=
  cbn -[insert lookup empty singletonM list_to_map bool_decide];
  eval_decide;
  cbn -[insert lookup empty singletonM list_to_map bool_decide].

(** Look a job up among the finished ones. *)
Ltac find_job :=
  cbn [jobs markers];
  repeat (rewrite lookup_insert_eq || rewrite lookup_insert_ne by done);
  try done.

(** Read a field of a finished job. *)
Ltac read_job :=
  cbn [jobs markers];
  repeat first
    [ rewrite lookup_insert_eq
    | rewrite lookup_singleton_eq
    | rewrite lookup_insert_ne by done
    | progress step_through ].

Section Run.
Variable w : world.

Lemma run_performance_gate r :
  run_job w r performance_gate
  = {| jobs := <["performance-gate" := gate_state w]> (jobs r);
       markers := markers r |}.
Proof.
  unfold run_job, run_steps, run_step, gate_state, check_status, check.
  step_through. unfold set_status. step_through.
  rewrite lookup_insert_eq, lookup_insert_ne, lookup_insert_eq by done.
  step_through. rewrite app_nil_r.
  destruct (ok _); step_through; reflexivity.
Qed.

Lemma run_deploy_staging r :
  result <$> jobs r !! "performance-gate" = Some Success ->
  run_job w r deploy_staging
  = {| jobs := <["deploy-staging" := deploy_state (staging_calls_ok w)]> (jobs r);
       markers := markers r ++
         if staging_calls_ok w
         then [("deploy-staging", deployment_marker w "Deployed to staging")]
         else [] |}.
Proof.
  intros Hgate.
  unfold run_job, run_steps, run_step, staging_calls_ok, deploy_state.
  step_through. rewrite Hgate. step_through.
  destruct (ok (action_ends w "deploy-staging" "actions/checkout@v3"));
  destruct (ok (action_ends w "deploy-staging" "Setup Node.js"));
  destruct (ok (action_ends w "deploy-staging" "Mark deployment in New Relic"));
    step_through; reflexivity.
Qed.

Lemma run_deploy_production r :
  jobs r !! "performance-gate" = Some (gate_state w) ->
  jobs r !! "deploy-staging" = Some (deploy_state (staging_calls_ok w)) ->
  run_job w r deploy_production
  = if staging_calls_ok w && reads w "pass" then
      {| jobs := <["deploy-production" := deploy_state (production_calls_ok w)]> (jobs r);
         markers := markers r ++
           if production_calls_ok w
           then [("deploy-production", deployment_marker w "Deployed to production")]
           else [] |}
    else
      {| jobs := <["deploy-production" := skipped_state]> (jobs r);
         markers := markers r |}.
Proof.
  intros Hgate Hstaging.
  unfold run_job, run_steps, run_step, production_calls_ok, reads.
  step_through. rewrite Hgate, Hstaging. step_through.
  rewrite lookup_singleton_eq. step_through.
  destruct (staging_calls_ok w); step_through; [|reflexivity].
  destruct (bool_decide _); step_through; [|reflexivity].
  destruct (ok (action_ends w "deploy-production" "actions/checkout@v3"));
  destruct (ok (action_ends w "deploy-production" "Setup Node.js"));
  destruct (ok (action_ends w "deploy-production" "Mark deployment in New Relic"));
    step_through; reflexivity.
Qed.

Lemma run_notify_performance_issue r :
  jobs r !! "performance-gate" = Some (gate_state w) ->
  run_job w r notify_performance_issue
  = {| jobs := <["notify-performance-issue" :=
                   if reads w "fail" then deploy_state true else skipped_state]>
                 (jobs r);
       markers := markers r |}.
Proof.
  intros Hgate.
  unfold run_job, run_steps, run_step, reads.
  step_through. rewrite Hgate. step_through.
  rewrite lookup_singleton_eq. step_through.
  destruct (bool_decide _); step_through; rewrite ?app_nil_r; reflexivity.
Qed.

(** The whole run, job by job. *)
Lemma pipeline_unfold :
  pipeline w
  = run_job w (run_job w (run_job w (run_job w
      {| jobs := ∅; markers := [] |} performance_gate) deploy_staging)
      deploy_production) notify_performance_issue.
Proof. reflexivity. Qed.

Lemma pipeline_run :
  jobs (pipeline w)
  = <["notify-performance-issue" :=
        if reads w "fail" then deploy_state true else skipped_state]>
      (<["deploy-production" :=
           if staging_calls_ok w && reads w "pass"
           then deploy_state (production_calls_ok w) else skipped_state]>
         (<["deploy-staging" := deploy_state (staging_calls_ok w)]>
            (<["performance-gate" := gate_state w]> ∅)))
  /\ markers (pipeline w)
     = (if staging_calls_ok w
        then [("deploy-staging", deployment_marker w "Deployed to staging")]
        else [])
       ++ (if staging_calls_ok w && reads w "pass" && production_calls_ok w
           then [("deploy-production",
                  deployment_marker w "Deployed to production")]
           else []).
Proof.
  rewrite pipeline_unfold, run_performance_gate.
  rewrite run_deploy_staging by find_job.
  rewrite run_deploy_production by find_job. cbn [jobs markers].
  destruct (staging_calls_ok w && reads w "pass") eqn:Hrun.
  - rewrite run_notify_performance_issue by find_job. cbn [jobs markers].
    split; [reflexivity|].
    apply andb_true_iff in Hrun as [-> _]. cbn.
    destruct (production_calls_ok w); reflexivity.
  - rewrite run_notify_performance_issue by find_job. cbn [jobs markers].
    split; [reflexivity|]. cbn [andb]. by rewrite app_nil_r.
Qed.

(** *** What a run shows *)

Lemma gate_decision_run :
  gate_decision (pipeline w) = Some (if ok (check w) then pass else fail).
Proof.
  unfold gate_decision. rewrite (proj1 pipeline_run). read_job.
  destruct (ok (check w)); read_job; reflexivity.
Qed.

Lemma performance_status_run : performance_status (pipeline w) = check_status w.
Proof.
  unfold performance_status. rewrite (proj1 pipeline_run). read_job.
  reflexivity.
Qed.

Lemma stage_performance_gate : stage (pipeline w) "performance-gate" = Some ran_ok.
Proof. unfold stage. rewrite (proj1 pipeline_run). find_job. Qed.

Lemma stage_deploy_staging :
  stage (pipeline w) "deploy-staging"
  = Some (if staging_calls_ok w then ran_ok else ran_failed).
Proof.
  unfold stage. rewrite (proj1 pipeline_run). find_job.
  destruct (staging_calls_ok w); reflexivity.
Qed.

Lemma stage_deploy_production :
  stage (pipeline w) "deploy-production"
  = Some (if staging_calls_ok w && reads w "pass"
          then if production_calls_ok w then ran_ok else ran_failed
          else skipped).
Proof.
  unfold stage. rewrite (proj1 pipeline_run). find_job.
  destruct (staging_calls_ok w && reads w "pass"); [|reflexivity].
  destruct (production_calls_ok w); reflexivity.
Qed.

Lemma stage_notify_performance_issue :
  stage (pipeline w) "notify-performance-issue"
  = Some (if reads w "fail" then ran_ok else skipped).
Proof.
  unfold stage. rewrite (proj1 pipeline_run). find_job.
  destruct (reads w "fail"); reflexivity.
Qed.

Lemma markers_of_deploy_staging :
  markers_of (pipeline w) "deploy-staging"
  = if staging_calls_ok w
    then [deployment_marker w "Deployed to staging"] else [].
Proof.
  unfold markers_of. rewrite (proj2 pipeline_run).
  destruct (staging_calls_ok w), (reads w "pass"), (production_calls_ok w);
    reflexivity.
Qed.

Lemma markers_of_deploy_production :
  markers_of (pipeline w) "deploy-production"
  = if staging_calls_ok w && reads w "pass" && production_calls_ok w
    then [deployment_marker w "Deployed to production"] else [].
Proof.
  unfold markers_of. rewrite (proj2 pipeline_run).
  destruct (staging_calls_ok w), (reads w "pass"), (production_calls_ok w);
    reflexivity.
Qed.

(** The two guards compare one string with two different words, so the
    guarded jobs never both run. *)
Lemma guards_exclude_each_other : reads w "pass" && reads w "fail" = false.
Proof.
  unfold reads. do 2 case_bool_decide; try reflexivity. congruence.
Qed.

End Run.

(** The guarded jobs never both run. *)
Lemma guarded_jobs_never_both_run (w : world) :
  attempted (pipeline w) "deploy-production"
  && attempted (pipeline w) "notify-performance-issue" = false.
Proof.
  unfold attempted.
  rewrite stage_deploy_production, stage_notify_performance_issue.
  pose proof (guards_exclude_each_other w) as Hex.
  destruct (staging_calls_ok w), (reads w "pass"), (reads w "fail"),
    (production_calls_ok w); try reflexivity; discriminate Hex.
Qed.

(** What the guard of [deploy-production] rests on in every run: the two
    jobs it needs ran ok, and the published status reads [pass]. *)
Lemma deploy_production_guard (w : world) :
  attempted (pipeline w) "deploy-production" = true <->
  stage (pipeline w) "deploy-staging" = Some ran_ok
  /\ lower (performance_status (pipeline w)) = "pass".
Proof.
  unfold attempted.
  rewrite stage_deploy_production, stage_deploy_staging, performance_status_run.
  unfold reads. case_bool_decide as Hpass;
    destruct (staging_calls_ok w), (production_calls_ok w); cbn;
    split; try discriminate; try tauto; intros [? ?]; discriminate.
Qed.

(** What the guard of [notify-performance-issue] rests on. *)
Lemma notify_performance_issue_guard (w : world) :
  attempted (pipeline w) "notify-performance-issue" = true <->
  lower (performance_status (pipeline w)) = "fail".
Proof.
  unfold attempted.
  rewrite stage_notify_performance_issue, performance_status_run.
  unfold reads. case_bool_decide; split; try discriminate; tauto.
Qed.




(** C3: in every run the [performance-gate] job ends (the failure of its
    check step is absorbed by [continue-on-error]) and [deploy-staging] is
    then attempted, whatever the check found and whatever the Gate Decision
    is; staging is not gated. *)
Theorem deploy_staging_is_not_gated (w : world) :
  stage (pipeline w) "performance-gate" = Some ran_ok
  /\ attempted (pipeline w) "deploy-staging" = true
  /\ (gate_decision (pipeline w) = Some pass
      \/ gate_decision (pipeline w) = Some fail).
Proof.
  unfold attempted.
  rewrite stage_performance_gate, stage_deploy_staging, gate_decision_run.
  split; [reflexivity|]. split.
  - destruct (staging_calls_ok w); reflexivity.
  - destruct (ok (check w)); auto.
Qed.

(** C4, as stated: a check that faults before setting any output is given
    the Gate Decision fail, and the run it starts is the run a breach
    starts; no configuration error is reported. *)
Lemma fault_defaults_to_fail :
  gate_decision (pipeline fault_run) = Some fail
  /\ pipeline fault_run = pipeline (with_check Breach ∅ calm).
Proof. split; vm_compute; reflexivity. Qed.

(** C4, amended: when the threshold check faults, the check step fails, its
    failure is absorbed by [continue-on-error], the [set-status] step
    records the Gate Decision fail, and the run is the same as the run of a
    threshold breach with the same outputs. *)
Theorem fault_is_recorded_as_fail (w : world) (outs : gmap string string) :
  ok (check (with_check Fault outs w)) = false
  /\ stage (pipeline (with_check Fault outs w)) "performance-gate" = Some ran_ok
  /\ gate_decision (pipeline (with_check Fault outs w)) = Some fail
  /\ pipeline (with_check Fault outs w) = pipeline (with_check Breach outs w).
Proof.
  rewrite stage_performance_gate, gate_decision_run.
  repeat split.
Qed.

(** C5, at the failing input: the check finds a breach and sets only its
    [value] output; the Gate Decision is fail, but the job output
    [performance_status] is read from the check step, not from [set-status],
    so it is empty and [notify-performance-issue] is skipped.  The same
    happens when the check faults before it sets any output. *)
Theorem notify_skipped_after_breach :
  (gate_decision (pipeline breach_run) = Some fail
   /\ performance_status (pipeline breach_run) = ""
   /\ stage (pipeline breach_run) "notify-performance-issue" = Some skipped)
  /\ (gate_decision (pipeline fault_run) = Some fail
      /\ stage (pipeline fault_run) "notify-performance-issue" = Some skipped).
Proof. repeat split; vm_compute; reflexivity. Qed.

(** C6, as stated: the Gate Decision is pass and [deploy-staging] ran ok,
    but the checkout of [deploy-production] fails; the job stops before its
    marker step and no marker is emitted for production. *)
Lemma no_production_marker_when_checkout_fails :
  gate_decision (pipeline production_checkout_fails) = Some pass
  /\ stage (pipeline production_checkout_fails) "deploy-staging" = Some ran_ok
  /\ stage (pipeline production_checkout_fails) "deploy-production"
     = Some ran_failed
  /\ markers_of (pipeline production_checkout_fails) "deploy-production" = []
  /\ markers (pipeline production_checkout_fails)
     = [("deploy-staging",
         deployment_marker production_checkout_fails "Deployed to staging")].
Proof. repeat split; vm_compute; reflexivity. Qed.

(** C6, amended: in every run in which the Gate Decision is pass and both
    [deploy-staging] and [deploy-production] reach ran-ok, exactly one
    marker is emitted by the staging job and exactly one by the production
    job, and no other; both carry the revision and the actor of the run and
    they differ in the environment their description names. *)
Theorem one_marker_per_deploy_that_ran_ok (w : world) :
  gate_decision (pipeline w) = Some pass ->
  stage (pipeline w) "deploy-staging" = Some ran_ok ->
  stage (pipeline w) "deploy-production" = Some ran_ok ->
  exists staged released,
    markers_of (pipeline w) "deploy-staging" = [staged]
    /\ markers_of (pipeline w) "deploy-production" = [released]
    /\ markers (pipeline w)
       = [("deploy-staging", staged); ("deploy-production", released)]
    /\ revision staged = sha w
    /\ revision released = revision staged
    /\ user released = user staged
    /\ description staged = "Deployed to staging"
    /\ description released = "Deployed to production"
    /\ description staged <> description released.
Proof.
  intros _. rewrite stage_deploy_staging, stage_deploy_production.
  intros Hstaging Hproduction.
  exists (deployment_marker w "Deployed to staging"),
         (deployment_marker w "Deployed to production").
  rewrite markers_of_deploy_staging, markers_of_deploy_production,
    (proj2 (pipeline_run w)).
  destruct (staging_calls_ok w); [|discriminate Hstaging].
  destruct (reads w "pass"); [|discriminate Hproduction].
  destruct (production_calls_ok w); [|discriminate Hproduction].
  repeat split. discriminate.
Qed.

Lemma one_marker_per_deploy_that_ran_ok_witness :
  exists staged released,
    markers_of (pipeline passing_run) "deploy-staging" = [staged]
    /\ markers_of (pipeline passing_run) "deploy-production" = [released]
    /\ markers (pipeline passing_run)
       = [("deploy-staging", staged); ("deploy-production", released)]
    /\ revision staged = sha passing_run
    /\ revision released = revision staged
    /\ user released = user staged
    /\ description staged = "Deployed to staging"
    /\ description released = "Deployed to production"
    /\ description staged <> description released.
Proof.
  apply (one_marker_per_deploy_that_ran_ok passing_run);
    vm_compute; reflexivity.
Defined.

(** C10, at the failing input: the check faults before it sets any output;
    [set-status] writes [status=fail] to its own outputs, but the job output
    [performance_status] is read from the check step and stays empty, so it
    is neither [pass] nor [fail] and neither guarded job runs. *)
Theorem performance_status_left_unset :
  (j ← jobs (pipeline fault_run) !! "performance-gate";
   st ← job_steps j !! "set-status";
   outputs st !! "status") = Some "fail"
  /\ performance_status (pipeline fault_run) = ""
  /\ performance_status (pipeline fault_run) <> "pass"
  /\ performance_status (pipeline fault_run) <> "fail"
  /\ attempted (pipeline fault_run) "deploy-production" = false
  /\ attempted (pipeline fault_run) "notify-performance-issue" = false.
Proof.
  assert (Hstatus : performance_status (pipeline fault_run) = "")
    by (vm_compute; reflexivity).
  rewrite Hstatus.
  repeat split; try (vm_compute; reflexivity); discriminate.
Qed.

End DeployFacts.

(* ===================================================================== *)
(** ** Facts about the report scripts *)
(* ===================================================================== *)

Module ReportFacts.
Import Report.

Lemma sh_app (script script' : list cmd) (fs : files) :
  sh (script ++ script') fs = sh script' (sh script fs).
Proof. apply foldl_app. Qed.

(** A run of appends to the report extends its text line by line. *)
Lemma sh_appends (ls : list string) (text : string) (fs : files) :
  document fs = Some text ->
  document (sh ((fun l => EchoAppend l report_md) <$> ls) fs)
  = Some (foldl (fun text l => text +:+ l +:+ newline) text ls).
Proof.
  revert text fs. induction ls as [|l ls IH]; intros text fs Htext.
  - exact Htext.
  - cbn [fmap list_fmap foldl sh]. apply IH.
    unfold document in *. cbn [exec]. rewrite Htext.
    apply lookup_insert_eq.
Qed.

(** A script that truncates the report and then only appends to it leaves
    the lines it echoes, whatever the workspace held. *)
Lemma sh_truncate_then_append (l : string) (ls : list string) (fs : files) :
  document (sh (EchoTo l report_md
                :: ((fun l => EchoAppend l report_md) <$> ls)) fs)
  = Some (lines (l :: ls)).
Proof.
  change (sh (?c :: ?cs) fs) with (sh cs (exec c fs)).
  unfold lines. cbn [foldl].
  apply sh_appends. apply lookup_insert_eq.
Qed.

Lemma sh_performance_report (date value outcome : string) :
  inert value = true -> inert outcome = true ->
  exists script,
    performance_report date value outcome = Some script
    /\ forall fs, document (sh script fs)
                  = Some (lines (performance_lines date value outcome)).
Proof.
  intros Hvalue Houtcome. unfold performance_report.
  rewrite Hvalue, Houtcome. cbn [andb].
  eexists. split; [reflexivity|]. intros fs.
  set (head := [ ""; "Run on: " +:+ date; ""; "## Response Time";
                 "Average: " +:+ value +:+ " ms"; ""; "## Status" ]).
  set (verdict := if bool_decide (outcome = "success")
                  then "✅ Performance test passed"
                  else "❌ Performance test failed").
  transitivity
    (document (sh (EchoTo "# Performance Test Results" report_md
                   :: ((fun l => EchoAppend l report_md) <$> head ++ [verdict]))
                  fs)).
  - unfold sh, verdict. cbn [foldl fmap list_fmap head app].
    cbn [exec]. destruct (bool_decide (outcome = "success")); reflexivity.
  - rewrite sh_truncate_then_append. reflexivity.
Qed.

Lemma sh_weekly_report (date error_rate : string) :
  inert error_rate = true ->
  exists script,
    weekly_report date error_rate = Some script
    /\ forall fs, document (sh script fs)
                  = Some (lines (weekly_lines date error_rate)).
Proof.
  intros Hrate. unfold weekly_report. rewrite Hrate.
  eexists. split; [reflexivity|]. intros fs.
  unfold weekly_lines.
  match goal with
  | |- _ = Some (lines (?l :: ?ls)) => exact (sh_truncate_then_append l ls fs)
  end.
Qed.

(** A pasted value that is not inert leaves the scripts outside what is
    given here. *)
Lemma reports_given_for_inert_values (date value outcome error_rate : string) :
  (is_Some (performance_report date value outcome)
   <-> inert value = true /\ inert outcome = true)
  /\ (is_Some (weekly_report date error_rate) <-> inert error_rate = true).
Proof.
  unfold performance_report, weekly_report.
  destruct (inert value), (inert outcome), (inert error_rate); cbn;
    repeat split; intros; try done; try (by eexists);
    try (by destruct H as [? ?]); by destruct H as [? [=]].
Qed.

(** C8: with the clock fixed ([date]) and the same inputs, values that
    carry no shell syntax, each report script leaves the same document
    whatever the workspace held before, in particular when it is run a
    second time on the workspace the first run left; the document is a
    function of the clock and the inputs alone. *)
Theorem reports_are_reproducible
  (date value outcome error_rate : string) (fs fs' : files) :
  inert value = true -> inert outcome = true -> inert error_rate = true ->
  exists performance weekly,
    performance_report date value outcome = Some performance
    /\ weekly_report date error_rate = Some weekly
    /\ document (sh performance fs) = document (sh performance fs')
    /\ document (sh performance (sh performance fs))
       = document (sh performance fs)
    /\ document (sh performance fs)
       = Some (lines (performance_lines date value outcome))
    /\ document (sh weekly fs) = document (sh weekly fs')
    /\ document (sh weekly (sh weekly fs)) = document (sh weekly fs)
    /\ document (sh weekly fs)
       = Some (lines (weekly_lines date error_rate)).
Proof.
  intros Hvalue Houtcome Hrate.
  destruct (sh_performance_report date value outcome Hvalue Houtcome)
    as (performance & Hperformance & Hdocument).
  destruct (sh_weekly_report date error_rate Hrate)
    as (weekly & Hweekly & Hdocument').
  exists performance, weekly.
  rewrite !Hdocument, !Hdocument'. repeat split; assumption.
Qed.

Lemma reports_are_reproducible_witness :
  exists performance weekly,
    performance_report "Mon Nov  2 12:00:00 UTC 2026" "120" "success"
    = Some performance
    /\ weekly_report "Mon Nov  2 12:00:00 UTC 2026" "2" = Some weekly
    /\ document (sh performance ∅)
       = document (sh performance {[report_md := "stale"]})
    /\ document (sh performance (sh performance ∅))
       = document (sh performance ∅)
    /\ document (sh performance ∅)
       = Some (lines (performance_lines "Mon Nov  2 12:00:00 UTC 2026"
                        "120" "success"))
    /\ document (sh weekly ∅) = document (sh weekly {[report_md := "stale"]})
    /\ document (sh weekly (sh weekly ∅)) = document (sh weekly ∅)
    /\ document (sh weekly ∅)
       = Some (lines (weekly_lines "Mon Nov  2 12:00:00 UTC 2026" "2")).
Proof.
  apply (reports_are_reproducible "Mon Nov  2 12:00:00 UTC 2026"
           "120" "success" "2" ∅ {[report_md := "stale"]});
    reflexivity.
Defined.

Example performance_report_sample :
  (fun script => document (sh script ∅))
    <$> performance_report "Mon Nov  2 12:00:00 UTC 2026" "120" "success"
  = Some (Some ("# Performance Test Results" +:+ newline +:+ newline
          +:+ "Run on: Mon Nov  2 12:00:00 UTC 2026" +:+ newline +:+ newline
          +:+ "## Response Time" +:+ newline
          +:+ "Average: 120 ms" +:+ newline +:+ newline
          +:+ "## Status" +:+ newline
          +:+ "✅ Performance test passed" +:+ newline)).
Proof. vm_compute. reflexivity. Qed.

End ReportFacts.

(* ===================================================================== *)
(** ** Facts about the Express application *)
(* ===================================================================== *)

Module ExpressFacts.
Import ExpressApp.

Lemma append_methods_first : append_methods [] = ["GET"; "HEAD"].
Proof. vm_compute. reflexivity. Qed.

Lemma append_methods_again : append_methods ["GET"; "HEAD"] = ["GET"; "HEAD"].
Proof. vm_compute. reflexivity. Qed.

(** A reply with status 500 is never turned into 304. *)
Lemma error_reply_stands (req : request) (p : payload) :
  reply_with req {| statusCode := 500; sent := p; after_ms := 0 |}
  = {| statusCode := 500; sent := carried req p; after_ms := 0 |}.
Proof.
  unfold reply_with, not_modified. cbn [statusCode sent after_ms].
  destruct (handles (method req)); reflexivity.
Qed.

(** What [res.send] makes of a reply with status 200. *)
Lemma ok_reply (req : request) (p : payload) (ms : Z) :
  reply_with req {| statusCode := 200; sent := p; after_ms := ms |}
  = if handles (method req) && revalidates req p
    then {| statusCode := 304; sent := NoBody; after_ms := ms |}
    else {| statusCode := 200; sent := carried req p; after_ms := ms |}.
Proof.
  unfold reply_with, not_modified. cbn [statusCode sent after_ms].
  destruct (handles (method req)); reflexivity.
Qed.

(** Walk the stack of [app] for a request, deciding first to last which
    routes match its path, and whether its method is handled. *)
Ltac by_route matches req :=
  unfold first_match, serve;
  cbn -[api_test_result append_methods handles reply_with bool_decide];
  rewrite ?error_reply_stands, ?ok_reply;
  destruct (handles (method req)) eqn:Hhandles;
  [| destruct (bool_decide (method req = "OPTIONS")) eqn:Hoptions ];
  [ destruct (matches "/" (url req)); [|
    destruct (matches "/fast" (url req)); [|
    destruct (matches "/slow" (url req)); [|
    destruct (matches "/api/test" (url req)); [|
    destruct (matches "/error" (url req))]]]]
  | destruct (matches "/" (url req)), (matches "/fast" (url req)),
      (matches "/slow" (url req)), (matches "/api/test" (url req)),
      (matches "/error" (url req))
  | destruct (matches "/" (url req)), (matches "/fast" (url req)),
      (matches "/slow" (url req)), (matches "/api/test" (url req)),
      (matches "/error" (url req)) ];
  rewrite ?append_methods_first, ?append_methods_again;
  cbn [andb].

(** X1: the layer stack answers every [GET] and [HEAD] request after the
    hold time the route table gives for the first route that matches its
    path, and with the status of the table, or with 304 in place of 200
    when the request carries validators that match; with 404 at once when
    no route matches.  A request of another method is answered 404 at
    once, but for an [OPTIONS] request to a registered path, which is
    answered 200 with the list of the methods [GET] and [HEAD]. *)
Theorem serve_follows_route_table
  (matches : string -> string -> bool) (random : nat -> Z) (req : request) :
  let target :=
    match first_match matches req with
    | Some path => TargetService.handle path
    | None => {| TargetService.statusCode := 404; TargetService.held_ms := 0 |}
    end in
  let a := answer (serve matches random req) in
  if handles (method req) then
    after_ms a = TargetService.held_ms target
    /\ (statusCode a = TargetService.statusCode target
        \/ statusCode a = 304 /\ TargetService.statusCode target = 200
           /\ sent a = NoBody)
    /\ ((forall p, revalidates req p = false) ->
        statusCode a = TargetService.statusCode target)
  else
    after_ms a = 0
    /\ statusCode a
       = match first_match matches req with
         | Some _ => if bool_decide (method req = "OPTIONS") then 200 else 404
         | None => 404
         end
    /\ (statusCode a = 200 -> sent a = Allow ["GET"; "HEAD"]).
Proof.
  by_route matches req;
    try (split; [reflexivity|]; split; [reflexivity | done]);
    match goal with
    | |- context [revalidates req ?p] =>
        destruct (revalidates req p) eqn:Hfresh; cbn;
        (split; [reflexivity|]); (split; [auto|]);
        intros Hnone; [by rewrite Hnone in Hfresh | reflexivity]
    | |- _ => cbn; (split; [reflexivity|]); (split; [auto|]); reflexivity
    end.
Qed.

Lemma serve_follows_route_table_witness :
  statusCode (answer (serve exact Traffic.cycling (get "/slow"))) = 200.
Proof.
  pose proof (serve_follows_route_table exact Traffic.cycling (get "/slow"))
    as Htable.
  apply (proj2 (proj2 Htable)). reflexivity.
Defined.

(** X2: the logging middleware is registered after the routes and the
    error handler, so it logs exactly the requests that no route answers:
    those whose path no route matches, and those of a method other than
    [GET] and [HEAD]; a request that a route answers, or whose handler
    throws, is never logged. *)
Theorem only_unmatched_requests_are_logged
  (matches : string -> string -> bool) (random : nat -> Z) (req : request) :
  out (serve matches random req)
  = match first_match matches req with
    | Some _ =>
        if handles (method req) then []
        else ["Received request: " +:+ method req +:+ " " +:+ url req]
    | None => ["Received request: " +:+ method req +:+ " " +:+ url req]
    end.
Proof.
  by_route matches req;
    repeat match goal with
           | |- context [revalidates req ?p] => destruct (revalidates req p)
           end;
    reflexivity.
Qed.

(** X3: the error thrown by [/error] never leaves the stack: it is answered
    by the error-handling middleware with status 500 and a JSON body that
    carries its message (no body for a [HEAD] request), and the error
    object is handed to the error console; every other request leaves the
    error console alone and is not answered 500. *)
Theorem thrown_error_is_answered_500
  (matches : string -> string -> bool) (random : nat -> Z) (req : request) :
  if handles (method req)
     && bool_decide (first_match matches req = Some "/error") then
    answer (serve matches random req)
    = {| statusCode := 500;
         sent := carried req
                   (Json (JObject
                      [("status", JString "error");
                       ("message", JString "This is a demonstration error")]));
         after_ms := 0 |}
    /\ err (serve matches random req)
       = [ErrorObject "This is a demonstration error"]
  else
    statusCode (answer (serve matches random req)) <> 500
    /\ err (serve matches random req) = [].
Proof.
  by_route matches req;
    try rewrite bool_decide_eq_false_2 by discriminate;
    try rewrite bool_decide_eq_true_2 by reflexivity;
    repeat match goal with
           | |- context [revalidates req ?p] => destruct (revalidates req p)
           end;
    cbn; split; (reflexivity || discriminate).
Qed.

Lemma api_test_result_lookup (random : nat -> Z) (i : nat) :
  (i < 1000)%nat ->
  api_test_result random !! i
  = Some (JObject [("id", JNumber (Int (Z.of_nat i)));
                   ("value", JNumber (Draw (random i)))]).
Proof.
  intros Hi. unfold api_test_result.
  rewrite list_lookup_fmap, lookup_seq_lt by done. reflexivity.
Qed.

(** X4: a [GET] request that [/api/test] answers, and that carries no
    validators matching the reply, gets status 200 and an array of exactly
    1000 objects, the [i]-th with [id] equal to [i] and [value] the [i]-th
    draw of the random source. *)
Theorem api_test_answers_thousand_items
  (matches : string -> string -> bool) (random : nat -> Z) (req : request) :
  method req = "GET" ->
  first_match matches req = Some "/api/test" ->
  revalidates req (Json (JArray (api_test_result random))) = false ->
  exists items,
    answer (serve matches random req)
    = {| statusCode := 200; sent := Json (JArray items); after_ms := 0 |}
    /\ length items = 1000%nat
    /\ forall i, (i < 1000)%nat ->
         items !! i
         = Some (JObject [("id", JNumber (Int (Z.of_nat i)));
                          ("value", JNumber (Draw (random i)))]).
Proof.
  intros Hmethod Hfirst Hfresh. exists (api_test_result random).
  split; [| split].
  - revert Hfirst. by_route matches req; intros [=];
      first [ rewrite Hfresh; unfold carried; rewrite Hmethod; reflexivity
            | rewrite Hmethod in Hhandles; discriminate Hhandles ].
  - unfold api_test_result. by rewrite length_fmap, length_seq.
  - apply api_test_result_lookup.
Qed.

Lemma api_test_answers_thousand_items_witness :
  exists items,
    answer (serve exact Traffic.cycling (get "/api/test"))
    = {| statusCode := 200; sent := Json (JArray items); after_ms := 0 |}
    /\ length items = 1000%nat
    /\ forall i, (i < 1000)%nat ->
         items !! i
         = Some (JObject [("id", JNumber (Int (Z.of_nat i)));
                          ("value", JNumber (Draw (Traffic.cycling i)))]).
Proof.
  apply (api_test_answers_thousand_items exact Traffic.cycling (get "/api/test"));
    reflexivity.
Defined.

End ExpressFacts.

(* ===================================================================== *)
(** ** More facts about the traffic generator *)
(* ===================================================================== *)

Module TrafficBounds.
Import Traffic.

(** The service never holds a request longer than the two seconds of
    [/slow]. *)
Lemma held_bounds (e : option string) : 0 <= held e <= 2000.
Proof.
  destruct e as [path|]; cbn; [|lia].
  unfold TargetService.handle. repeat case_bool_decide; cbn; lia.
Qed.

(** The positions of a list, as [imap] pairs them with the elements. *)
Lemma imap_pair_positions {A} (g : nat -> nat) (l : list A) :
  fst <$> imap (fun i x => (g i, x)) l = g <$> seq 0 (length l).
Proof.
  revert g. induction l as [|x l IH]; intros g; [reflexivity|].
  cbn [imap fmap list_fmap length seq fst]. f_equal.
  rewrite <- fmap_S_seq, <- list_fmap_compose. apply IH.
Qed.

Lemma elem_of_imap_pair {A} (l : list A) (i : nat) (x : A) :
  (i, x) ∈ imap pair l -> l !! i = Some x.
Proof.
  intros Hin. apply elem_of_lookup_imap in Hin as (j & y & [= -> ->] & Hy).
  exact Hy.
Qed.

(** A list of distinct numbers of an interval is no longer than the
    interval. *)
Lemma distinct_in_interval (l : list nat) (start len : nat) :
  NoDup l ->
  (forall i, i ∈ l -> (start <= i < start + len)%nat) ->
  (length l <= len)%nat.
Proof.
  intros Hdistinct Hin.
  assert (l ⊆+ seq start len) as Hsub.
  { apply NoDup_submseteq; [done|].
    intros i Hi. apply elem_of_seq. by apply Hin. }
  apply submseteq_length in Hsub. by rewrite length_seq in Hsub.
Qed.

(** X5: if every callback runs at or after its delay and at most [late]
    ms after it, and every response is back at most [500 * n - late] ms
    after its request was sent (the time in transit plus the two seconds
    the service may hold a request), then at no time are more than [n]
    requests in flight, whatever endpoints the draws pick. *)
Theorem in_flight_bounded
  (random fired transit : nat -> Z) (late : Z) (n : nat) (t : Z) :
  after_delay fired ->
  (forall i, (i < 20)%nat -> fired i <= Z.of_nat i * 500 + late) ->
  (forall i, (i < 20)%nat -> late + transit i + 2000 <= 500 * Z.of_nat n) ->
  (length (in_flight transit (dispatches random fired) t) <= n)%nat.
Proof.
  intros Hafter Hfired Hback. unfold in_flight. rewrite length_fmap.
  set (flying := filter _ _).
  rewrite <- (length_fmap fst flying).
  apply (distinct_in_interval _ (Z.to_nat (t / 500 - Z.of_nat n + 1))).
  - apply (sublist_NoDup _ (fst <$> imap pair (dispatches random fired))).
    + rewrite (imap_pair_positions (fun i => i)), list_fmap_id.
      apply NoDup_seq.
    + apply fmap_sublist, sublist_filter.
  - intros i Hi.
    apply list_elem_of_fmap in Hi as ([j r] & -> & Hflying).
    apply list_elem_of_filter in Hflying as [[Hsent Hanswered] Hjr].
    cbn [fst snd] in *.
    apply elem_of_imap_pair in Hjr.
    assert (j < 20)%nat as Hj.
    { apply lookup_lt_Some in Hjr. exact Hjr. }
    rewrite TrafficFacts.dispatches_lookup in Hjr by done. injection Hjr as <-.
    unfold answered_at in Hanswered. cbn [on_timer sent_at endpoint] in *.
    pose proof (held_bounds (endpoints !! Z.to_nat (pick (random j)))) as Hheld.
    specialize (Hback j Hj). specialize (Hfired j Hj).
    pose proof (TrafficFacts.after_delay_lookup fired j Hafter Hj) as Hdelay.
    assert (t / 500 - Z.of_nat n < Z.of_nat j <= t / 500).
    { split.
      - assert (t / 500 < Z.of_nat j + Z.of_nat n)
          by (apply Z.div_lt_upper_bound; lia).
        lia.
      - apply Z.div_le_lower_bound; lia. }
    lia.
Qed.

Lemma in_flight_bounded_witness :
  (length (in_flight no_transit (dispatches always_slow late_start) 2001) <= 5)%nat.
Proof.
  apply (in_flight_bounded always_slow late_start no_transit 226 5 2001).
  - apply TrafficFacts.sample_schedules_after_delay.
  - intros i _. unfold late_start. destruct i; lia.
  - intros i _. unfold no_transit. lia.
Defined.

(** Every request of a run comes from one of the twenty timers. *)
Lemma dispatches_elem (random fired : nat -> Z) (r : request) :
  r ∈ dispatches random fired ->
  exists i, (i < 20)%nat /\ r = on_timer (fired i) (random i).
Proof.
  intros Hr. apply list_elem_of_lookup in Hr as [i Hi].
  assert (i < 20)%nat as Hlt by (apply lookup_lt_Some in Hi; exact Hi).
  rewrite TrafficFacts.dispatches_lookup in Hi by done.
  exists i. split; [done|]. by injection Hi.
Qed.

(** X6: every request the generator sends goes to a path the application
    has a route for: served by the layer stack (paths matched exactly), it
    is answered by that route, with status 500 for [/error] and 200
    otherwise, after the time the route table holds it, and the logging
    middleware never sees it. *)
Theorem requests_reach_routes (random fired draws : nat -> Z) (r : request) :
  (forall i, is_random (random i)) ->
  r ∈ dispatches random fired ->
  exists path,
    endpoint r = Some path
    /\ path ∈ endpoints
    /\ ExpressApp.first_match ExpressApp.exact (ExpressApp.get path) = Some path
    /\ ExpressApp.statusCode
         (ExpressApp.answer
            (ExpressApp.serve ExpressApp.exact draws (ExpressApp.get path)))
       = (if bool_decide (path = "/error") then 500 else 200)
    /\ ExpressApp.after_ms
         (ExpressApp.answer
            (ExpressApp.serve ExpressApp.exact draws (ExpressApp.get path)))
       = held (endpoint r)
    /\ ExpressApp.out
         (ExpressApp.serve ExpressApp.exact draws (ExpressApp.get path))
       = [].
Proof.
  intros Hrandom Hr.
  apply dispatches_elem in Hr as (i & Hi & ->).
  pose proof (TrafficFacts.pick_range _ (Hrandom i)) as Hpick.
  unfold on_timer; cbn [endpoint].
  assert (pick (random i) = 0 \/ pick (random i) = 1
          \/ pick (random i) = 2 \/ pick (random i) = 3)
    as Hcases by lia.
  clear Hpick. destruct Hcases as [Hk | [Hk | [Hk | Hk]]]; rewrite Hk;
    cbn [endpoints lookup list_lookup Z.to_nat Pos.to_nat Pos.iter_op Init.Nat.add];
    eexists; (split; [reflexivity|]); (split; [set_solver|]);
    repeat split; vm_compute; reflexivity.
Qed.

Lemma requests_reach_routes_witness :
  exists path,
    endpoint (on_timer (late_start 2) (cycling 2)) = Some path
    /\ path ∈ endpoints
    /\ ExpressApp.first_match ExpressApp.exact (ExpressApp.get path) = Some path
    /\ ExpressApp.statusCode
         (ExpressApp.answer
            (ExpressApp.serve ExpressApp.exact cycling (ExpressApp.get path)))
       = (if bool_decide (path = "/error") then 500 else 200)
    /\ ExpressApp.after_ms
         (ExpressApp.answer
            (ExpressApp.serve ExpressApp.exact cycling (ExpressApp.get path)))
       = held (endpoint (on_timer (late_start 2) (cycling 2)))
    /\ ExpressApp.out
         (ExpressApp.serve ExpressApp.exact cycling (ExpressApp.get path))
       = [].
Proof.
  apply (requests_reach_routes cycling late_start cycling).
  - intros i. unfold is_random, cycling.
    pose proof (Nat.mod_upper_bound i 4 ltac:(lia)). lia.
  - apply list_elem_of_lookup. exists 2%nat. reflexivity.
Defined.

End TrafficBounds.

(* ===================================================================== *)
(** ** More facts about the load-test script *)
(* ===================================================================== *)

Module LoadTestOutput.
Import LoadTest.

(** X7: the script ends with status 0 or 1; it ends with 0 exactly when
    [autocannon] resolved with a p99 of at most 500, and it writes to the
    error console exactly when it ends with 1 (one line then, none
    otherwise). *)
Theorem exit_status_and_error_console (p : promise result) :
  (exit_code (run p) = 0 \/ exit_code (run p) = 1)
  /\ (exit_code (run p) = 0 <-> exists r, p = Resolved r /\ latency_p99 r <= 500)
  /\ (exit_code (run p) = 0 <-> stderr (output (run p)) = [])
  /\ (exit_code (run p) = 1 <-> length (stderr (output (run p))) = 1%nat).
Proof.
  destruct p as [r | e].
  - rewrite LoadTestFacts.exit_code_resolved, LoadTestFacts.stderr_resolved.
    destruct (Z.ltb_spec 500 (latency_p99 r)); cbn.
    + repeat split; auto; try discriminate.
      intros (r' & [= <-] & Hle). lia.
    + repeat split; auto; try discriminate. eauto.
  - destruct (LoadTestFacts.run_rejected e) as (-> & -> & _). cbn.
    repeat split; auto; try discriminate.
    intros (r' & [=] & _).
Qed.

(** X8: a run that resolved prints the same seven lines whether it passes
    the gate or not, the four readings of the result among them in the
    order requests, throughput, average latency, p99: the results are on
    the console before the threshold is looked at; a run that was rejected
    prints the opening line only. *)
Theorem results_are_printed_before_the_gate (r : result) (e : string) :
  stdout (output (run (Resolved r)))
  = [ Plain "Starting load test...";
      Plain "Load test complete";
      Plain "Results:";
      Template "- Requests: " (requests_total r) "";
      Template "- Throughput: " (throughput_total r) " bytes/sec";
      Template "- Latency (avg): " (latency_average r) " ms";
      Template "- Latency (p99): " (whole (latency_p99 r)) " ms" ]
  /\ stdout (output (run (Rejected e))) = [Plain "Starting load test..."].
Proof.
  split; [|apply LoadTestFacts.run_rejected].
  unfold run, main, catch, runLoadTest, mbind, proc_bind, await,
    console_log, console_error, process_exit, mret, proc_ret; cbn.
  destruct (500 <? latency_p99 r); reflexivity.
Qed.

End LoadTestOutput.

(* ===================================================================== *)
(** ** More facts about the deployment workflow *)
(* ===================================================================== *)

Module DeployGuards.
Import Actions Deploy.

(** X9: in every run at least one of the two guarded jobs is skipped, and
    a run that notifies emits no production marker. *)
Theorem guarded_jobs_exclude_each_other (w : world) :
  (stage (pipeline w) "deploy-production" = Some skipped
   \/ stage (pipeline w) "notify-performance-issue" = Some skipped)
  /\ (stage (pipeline w) "notify-performance-issue" = Some skipped
      \/ markers_of (pipeline w) "deploy-production" = []).
Proof.
  rewrite DeployFacts.stage_deploy_production,
    DeployFacts.stage_notify_performance_issue,
    DeployFacts.markers_of_deploy_production.
  pose proof (DeployFacts.guards_exclude_each_other w) as Hex.
  destruct (staging_calls_ok w), (reads w "pass"), (reads w "fail"),
    (production_calls_ok w); cbn; auto; discriminate Hex.
Qed.

(** X10: the outcome of [deploy-production] in terms of what a run shows:
    it is skipped unless [deploy-staging] ran ok and the job output
    [performance_status] reads [pass] (in any case of letters); when it
    runs it fails exactly when one of its three action calls fails. *)
Theorem deploy_production_outcome (w : world) :
  stage (pipeline w) "deploy-production"
  = Some match stage (pipeline w) "deploy-staging" with
         | Some ran_ok =>
             if bool_decide (lower (performance_status (pipeline w)) = "pass")
             then if production_calls_ok w then ran_ok else ran_failed
             else skipped
         | _ => skipped
         end.
Proof.
  rewrite DeployFacts.stage_deploy_production, DeployFacts.stage_deploy_staging,
    DeployFacts.performance_status_run.
  unfold reads. destruct (staging_calls_ok w); reflexivity.
Qed.

(** X11: [notify-performance-issue] runs exactly when the job output
    [performance_status] reads [fail]; it then ends ran-ok, and neither the
    outcome of [deploy-staging] nor any action call of the deploy jobs has
    a say in it. *)
Theorem notify_performance_issue_outcome (w : world) :
  stage (pipeline w) "notify-performance-issue"
  = Some (if bool_decide (lower (performance_status (pipeline w)) = "fail")
          then ran_ok else skipped).
Proof.
  rewrite DeployFacts.stage_notify_performance_issue,
    DeployFacts.performance_status_run.
  reflexivity.
Qed.

(** X12: how the threshold check ended has no influence on the rest of the
    run: with the same outputs of the check action, a check within the
    threshold, a breach and a fault publish the same [performance_status]
    (the [status] output of the action, empty when it set none), give the
    three dependent jobs the same outcomes and emit the same markers. *)
Theorem check_outcome_does_not_reach_the_guards
  (w : world) (outs : gmap string string) (e e' : evaluation) :
  performance_status (pipeline (with_check e outs w))
  = default "" (outs !! "status")
  /\ performance_status (pipeline (with_check e outs w))
     = performance_status (pipeline (with_check e' outs w))
  /\ (forall job, job <> "performance-gate" ->
        stage (pipeline (with_check e outs w)) job
        = stage (pipeline (with_check e' outs w)) job)
  /\ markers (pipeline (with_check e outs w))
     = markers (pipeline (with_check e' outs w)).
Proof.
  rewrite !DeployFacts.performance_status_run.
  split; [reflexivity|]. split; [reflexivity|]. split.
  - intros job Hjob. unfold stage.
    rewrite !(proj1 (DeployFacts.pipeline_run _)).
    rewrite !lookup_insert.
    repeat case_decide; reflexivity || congruence.
  - rewrite !(proj2 (DeployFacts.pipeline_run _)). reflexivity.
Qed.

Lemma check_outcome_does_not_reach_the_guards_witness :
  stage (pipeline (with_check Within {["value" := "120"]} calm))
    "deploy-production"
  = stage (pipeline (with_check Breach {["value" := "120"]} calm))
      "deploy-production".
Proof.
  apply (proj1 (proj2 (proj2
    (check_outcome_does_not_reach_the_guards
       calm {["value" := "120"]} Within Breach)))).
  discriminate.
Defined.

(** X13: the failure of the check step never fails [performance-gate]:
    the step is recorded with its outcome and the conclusion success, and
    the verdict [set-status] writes follows the outcome, pass for success
    and fail otherwise, so every run has a Gate Decision. *)
Theorem set_status_follows_check_outcome (w : world) :
  exists checked,
    (j ← jobs (pipeline w) !! "performance-gate";
     job_steps j !! "performance-check") = Some checked
    /\ outcome checked = (if ok (check w) then Success else Failure)
    /\ conclusion checked = Success
    /\ outputs checked = set_outputs (check w)
    /\ gate_decision (pipeline w)
       = Some (if bool_decide (outcome checked = Success) then pass else fail).
Proof.
  rewrite DeployFacts.gate_decision_run.
  rewrite (proj1 (DeployFacts.pipeline_run w)).
  rewrite !lookup_insert_ne, lookup_insert_eq by done.
  cbn [mbind option_bind gate_state job_steps].
  rewrite lookup_insert_ne, lookup_singleton_eq by done.
  eexists. split; [reflexivity|]. cbn [outcome conclusion outputs].
  destruct (ok (check w)); repeat split.
Qed.

(** X14: the markers of a run are a prefix of the pair (staging marker,
    production marker): the staging marker is emitted exactly when
    [deploy-staging] ran ok, the production marker exactly when
    [deploy-production] ran ok, never the second without the first, and
    both carry the revision and the actor of the run. *)
Theorem markers_follow_the_deploys (w : world) :
  markers (pipeline w)
    `prefix_of` [("deploy-staging", deployment_marker w "Deployed to staging");
                 ("deploy-production",
                  deployment_marker w "Deployed to production")]
  /\ (("deploy-staging", deployment_marker w "Deployed to staging")
        ∈ markers (pipeline w)
      <-> stage (pipeline w) "deploy-staging" = Some ran_ok)
  /\ (("deploy-production", deployment_marker w "Deployed to production")
        ∈ markers (pipeline w)
      <-> stage (pipeline w) "deploy-production" = Some ran_ok).
Proof.
  rewrite (proj2 (DeployFacts.pipeline_run w)),
    DeployFacts.stage_deploy_staging, DeployFacts.stage_deploy_production.
  destruct (staging_calls_ok w), (reads w "pass"), (production_calls_ok w);
    cbn; (split; [|split]);
    try (eexists; reflexivity);
    split; intros H; try discriminate H; try done;
    try (apply list_elem_of_In; cbn; auto; fail);
    apply list_elem_of_In in H; cbn in H; intuition congruence.
Qed.

End DeployGuards.

(* ===================================================================== *)
(** ** Facts about the report workflows *)
(* ===================================================================== *)

Module WorkspaceFacts.
Import Actions Workspace.

(** X15: the script of [Run application with load test] ends with the
    exit status of the load test when that is not 0, and never comes to
    its [kill] then; when the load test passes, the script kills the
    application and ends with 0, or ends with 1 if the application is gone.
    The load test passes exactly when [autocannon] resolved with a p99 of
    at most 500. *)
Theorem load_test_step_stops_at_failed_load_test (s : site) :
  bash_e s run_application_with_load_test fresh_shell
  = (if load_test_passes s
     then if app_alive s then 0 else 1
     else LoadTest.exit_code (LoadTest.run (autocannon s)),
     {| started := true; app_pid := true;
        killed := load_test_passes s && app_alive s |})
  /\ (load_test_passes s = true
      <-> exists r, autocannon s = LoadTest.Resolved r
                    /\ LoadTest.latency_p99 r <= 500).
Proof.
  split.
  - unfold load_test_passes, run_application_with_load_test, bash_e,
      run_command, npm_run. cbn -[LoadTest.run Z.eqb].
    rewrite bool_decide_eq_true_2 by reflexivity.
    destruct (LoadTest.exit_code (LoadTest.run (autocannon s)) =? 0);
      cbn; [|reflexivity].
    destruct (app_alive s); reflexivity.
  - unfold load_test_passes. rewrite Z.eqb_eq.
    destruct (autocannon s) as [r | e].
    + rewrite LoadTestFacts.exit_code_resolved.
      destruct (Z.ltb_spec 500 (LoadTest.latency_p99 r)); split;
        try discriminate; try (intros (r' & [= <-] & Hle); lia); eauto.
    + destruct (LoadTestFacts.run_rejected e) as (-> & _).
      split; [discriminate | intros (r' & [=] & _)].
Qed.

(** *** One step at a time *)

Definition skipped_step : step_state :=
  {| outcome := Skipped; conclusion := Skipped; outputs := ∅ |}.

Definition ended_step (good : bool) (outs : gmap string string) : step_state :=
  {| outcome := if good then Success else Failure;
     conclusion := if good then Success else Failure;
     outputs := outs |}.

Lemma run_wstep_skipped s job c fs stored st :
  run_wstep s job
    {| s_ctx := c; s_failed := true; s_files := fs; s_artifacts := stored |} st
  = Some {| s_ctx := remember c (step_id st) skipped_step; s_failed := true;
            s_files := fs; s_artifacts := stored |}.
Proof. reflexivity. Qed.

Lemma run_wstep_action s job c fs stored name id action with_ :
  action <> upload_action ->
  run_wstep s job
    {| s_ctx := c; s_failed := false; s_files := fs; s_artifacts := stored |}
    {| step_name := name; step_id := id; step_continue_on_error := false;
       step_work := Action action with_ |}
  = Some {| s_ctx := remember c id
                       (ended_step (ok (action_ends (runner s) job name))
                          (set_outputs (action_ends (runner s) job name)));
            s_failed := negb (ok (action_ends (runner s) job name));
            s_files := touches s name fs;
            s_artifacts := stored |}.
Proof.
  intros Hother. unfold run_wstep. cbn -[bool_decide].
  rewrite (bool_decide_eq_false_2 _ Hother). cbn. rewrite app_nil_r.
  destruct (ok (action_ends (runner s) job name)); reflexivity.
Qed.

Lemma run_wstep_upload s job c fs stored name id with_ :
  run_wstep s job
    {| s_ctx := c; s_failed := false; s_files := fs; s_artifacts := stored |}
    {| step_name := name; step_id := id; step_continue_on_error := false;
       step_work := Action upload_action with_ |}
  = Some {| s_ctx := remember c id
                       (ended_step (ok (action_ends (runner s) job name))
                          (set_outputs (action_ends (runner s) job name)));
            s_failed := negb (ok (action_ends (runner s) job name));
            s_files := touches s name fs;
            s_artifacts :=
              stored ++
              if ok (action_ends (runner s) job name) then upload c with_ fs
              else [] |}.
Proof.
  unfold run_wstep. cbn -[bool_decide].
  rewrite (bool_decide_eq_true_2 _ eq_refl). cbn.
  destruct (ok (action_ends (runner s) job name)); reflexivity.
Qed.

Lemma run_wstep_script s job c fs stored name id run code fs' :
  run s c fs = Some (code, fs') ->
  run_wstep s job
    {| s_ctx := c; s_failed := false; s_files := fs; s_artifacts := stored |}
    {| step_name := name; step_id := id; step_continue_on_error := false;
       step_work := Script run |}
  = Some {| s_ctx := remember c id (ended_step (code =? 0) ∅);
            s_failed := negb (code =? 0);
            s_files := fs';
            s_artifacts := stored |}.
Proof.
  intros Hrun. unfold run_wstep. cbn. rewrite Hrun. cbn.
  rewrite app_nil_r. destruct (code =? 0); reflexivity.
Qed.

(** Hand the session that is written out to the next step. *)
Ltac hand_on := cbn [mbind option_bind].

(** Run the next step of a session that is written out. *)
Ltac next_step :=
  hand_on;
  first [ rewrite run_wstep_action by done
        | rewrite run_wstep_upload
        | erewrite run_wstep_script by reflexivity ];
  cbn beta; cbn [fst snd app].

(** Once a step has failed, the rest are skipped. *)
Ltac skip_rest :=
  cbn [negb]; repeat (hand_on; rewrite run_wstep_skipped);
  cbn [fmap option_fmap option_map s_artifacts s_failed andb negb];
  split; reflexivity.

Lemma upload_inputs (c : context) (name path : string) :
  input c [("name", Lit name); ("path", Lit path)] "path" = path
  /\ input c [("name", Lit name); ("path", Lit path)] "name" = name.
Proof. split; reflexivity. Qed.

#[local] Opaque bash_e.

(** X16: when the average the check reports carries no shell syntax and
    the license key is a single line, [performance-test] uploads a report
    only when every one of its steps succeeds, the load test and the APM
    check among them, and the job fails otherwise; so the report it
    uploads always carries the line that the performance test passed, with
    the average the check reported, whatever the workspace held and
    whatever the steps did to its other files. *)
Theorem performance_test_uploads_passed_reports_only
  (s : site) (fs : Report.files) :
  Report.inert (value_of s "performance-test" "Check APM metrics") = true ->
  single_line (license_key s) = true ->
  s_artifacts <$> run_single_job s "performance-test" fs performance_test
  = Some (if performance_test_succeeds s
          then [("performance-report",
                 Report.lines
                   (Report.performance_lines (date s)
                      (value_of s "performance-test" "Check APM metrics")
                      "success"))]
          else [])
  /\ s_failed <$> run_single_job s "performance-test" fs performance_test
     = Some (negb (performance_test_succeeds s)).
Proof.
  intros Hvalue Hkey.
  destruct (ReportFacts.sh_performance_report (date s) _ "success"
              Hvalue eq_refl) as (script & Hscript & Hdocument).
  unfold run_single_job, performance_test, performance_test_succeeds,
    value_of, license_key, call, action_step, script_step in *.
  cbn [foldl].
  next_step.
  destruct (ok (action_ends (runner s) "performance-test" "actions/checkout@v3"));
    [|skip_rest].
  cbn [negb]. next_step.
  destruct (ok (action_ends (runner s) "performance-test" "Setup Node.js"));
    [|skip_rest].
  cbn [negb]. next_step.
  destruct (npm_ci s =? 0); [|skip_rest].
  cbn [negb]. hand_on.
  erewrite run_wstep_script.
  2:{ cbn [remember eval text secrets start_context]. rewrite Hkey.
      reflexivity. }
  cbn [Z.eqb negb]. next_step.
  destruct ((bash_e s run_application_with_load_test fresh_shell).1 =? 0);
    [|skip_rest].
  cbn [negb]. next_step.
  destruct (ok (action_ends (runner s) "performance-test" "Check APM metrics"));
    [|skip_rest].
  cbn [negb]. hand_on.
  erewrite run_wstep_script.
  2:{ cbn [remember eval steps]. rewrite !lookup_insert_eq.
      cbn [mbind option_bind fmap option_fmap option_map default outcome
           outputs compose status_text ended_step text Datatypes.id].
      rewrite Hscript. reflexivity. }
  cbn [Z.eqb negb]. next_step. hand_on.
  cbn [fmap option_fmap option_map s_artifacts s_failed andb app].
  destruct (ok (action_ends (runner s) "performance-test"
                  "Upload performance report")).
  2:{ split; reflexivity. }
  cbn [andb negb].
  unfold upload.
  rewrite (proj1 (upload_inputs _ _ _)), (proj2 (upload_inputs _ _ _)).
  change (?fs !! "performance-report.md") with (Report.document fs).
  rewrite Hdocument. split; reflexivity.
Qed.

Lemma performance_test_uploads_passed_reports_only_witness :
  s_artifacts <$> run_single_job quiet "performance-test" ∅ performance_test
  = Some [("performance-report",
           Report.lines
             (Report.performance_lines "Mon Nov  2 12:00:00 UTC 2026"
                "120" "success"))].
Proof.
  apply (performance_test_uploads_passed_reports_only quiet ∅); reflexivity.
Defined.

(** X17: when the error rate the query reports carries no shell syntax,
    [generate-report] uploads its report exactly when the checkout, the
    two queries and the upload succeed, and the job fails otherwise; the
    report is made of the date and the error rate alone: whatever the
    query for the slowest transactions returned, the table holds the
    placeholder line. *)
Theorem weekly_report_ignores_the_transactions
  (s : site) (fs : Report.files) :
  Report.inert (value_of s "generate-report" "Fetch error rate") = true ->
  s_artifacts <$> run_single_job s "generate-report" fs generate_report
  = Some (if generate_report_succeeds s
          then [("weekly-performance-report",
                 Report.lines
                   (Report.weekly_lines (date s)
                      (value_of s "generate-report" "Fetch error rate")))]
          else [])
  /\ s_failed <$> run_single_job s "generate-report" fs generate_report
     = Some (negb (generate_report_succeeds s)).
Proof.
  intros Hvalue.
  destruct (ReportFacts.sh_weekly_report (date s) _ Hvalue)
    as (script & Hscript & Hdocument).
  unfold run_single_job, generate_report, generate_report_succeeds,
    value_of, call, action_step, script_step in *.
  cbn [foldl].
  next_step.
  destruct (ok (action_ends (runner s) "generate-report" "actions/checkout@v3"));
    [|skip_rest].
  cbn [negb]. next_step.
  destruct (ok (action_ends (runner s) "generate-report" "Fetch performance data"));
    [|skip_rest].
  cbn [negb]. next_step.
  destruct (ok (action_ends (runner s) "generate-report" "Fetch error rate"));
    [|skip_rest].
  cbn [negb]. hand_on.
  erewrite run_wstep_script.
  2:{ cbn [remember eval steps]. rewrite !lookup_insert_eq.
      cbn [mbind option_bind fmap option_fmap option_map default outcome
           outputs compose status_text ended_step text Datatypes.id].
      rewrite Hscript. reflexivity. }
  cbn [Z.eqb negb]. next_step. hand_on.
  cbn [fmap option_fmap option_map s_artifacts s_failed andb app].
  destruct (ok (action_ends (runner s) "generate-report"
                  "Upload performance report")).
  2:{ split; reflexivity. }
  cbn [andb negb].
  unfold upload.
  rewrite (proj1 (upload_inputs _ _ _)), (proj2 (upload_inputs _ _ _)).
  change (?fs !! "performance-report.md") with (Report.document fs).
  rewrite Hdocument. split; reflexivity.
Qed.

Lemma weekly_report_ignores_the_transactions_witness :
  s_artifacts <$> run_single_job quiet "generate-report" ∅ generate_report
  = Some [("weekly-performance-report",
           Report.lines
             (Report.weekly_lines "Mon Nov  2 12:00:00 UTC 2026" "120"))].
Proof.
  apply (weekly_report_ignores_the_transactions quiet ∅); reflexivity.
Defined.

End WorkspaceFacts.

(* ===================================================================== *)
(** ** More facts about the report scripts *)
(* ===================================================================== *)

Module ReportScope.
Import Report.

Lemma sh_appends_elsewhere (ls : list string) (fs : files) (path : string) :
  path <> report_md ->
  sh ((fun l => EchoAppend l report_md) <$> ls) fs !! path = fs !! path.
Proof.
  intros Hpath. revert fs. induction ls as [|l ls IH]; intros fs; [reflexivity|].
  cbn [fmap list_fmap foldl sh]. unfold sh in IH. rewrite IH.
  cbn [exec]. by rewrite lookup_insert_ne.
Qed.

Lemma sh_truncate_then_append_elsewhere
  (l : string) (ls : list string) (fs : files) (path : string) :
  path <> report_md ->
  sh (EchoTo l report_md :: ((fun l => EchoAppend l report_md) <$> ls)) fs
    !! path
  = fs !! path.
Proof.
  intros Hpath.
  change (sh (?c :: ?cs) fs) with (sh cs (exec c fs)).
  rewrite sh_appends_elsewhere by done.
  cbn [exec]. by rewrite lookup_insert_ne.
Qed.

(** X18: given values that carry no shell syntax, the two report scripts
    write [performance-report.md] and nothing else: every other file of the
    workspace is left with the content it had, or left absent. *)
Theorem report_scripts_write_one_file
  (date value outcome error_rate path : string) (fs : files) :
  inert value = true -> inert outcome = true -> inert error_rate = true ->
  path <> report_md ->
  exists performance weekly,
    performance_report date value outcome = Some performance
    /\ weekly_report date error_rate = Some weekly
    /\ sh performance fs !! path = fs !! path
    /\ sh weekly fs !! path = fs !! path.
Proof.
  intros Hvalue Houtcome Hrate Hpath.
  unfold performance_report, weekly_report.
  rewrite Hvalue, Houtcome, Hrate. cbn [andb].
  eexists _, _. split; [reflexivity|]. split; [reflexivity|]. split.
  - set (head := [ ""; "Run on: " +:+ date; ""; "## Response Time";
                   "Average: " +:+ value +:+ " ms"; ""; "## Status" ]).
    set (verdict := if bool_decide (outcome = "success")
                    then "✅ Performance test passed"
                    else "❌ Performance test failed").
    transitivity
      (sh (EchoTo "# Performance Test Results" report_md
           :: ((fun l => EchoAppend l report_md) <$> head ++ [verdict])) fs
         !! path).
    + unfold sh, verdict.
      cbn [foldl fmap list_fmap head app]. cbn [exec].
      destruct (bool_decide (outcome = "success")); reflexivity.
    + by apply sh_truncate_then_append_elsewhere.
  - match goal with
    | |- sh (EchoTo ?l _ :: _) _ !! _ = _ =>
        exact (sh_truncate_then_append_elsewhere l
                 (tail (weekly_lines date error_rate)) fs path Hpath)
    end.
Qed.

Lemma report_scripts_write_one_file_witness :
  exists performance weekly,
    performance_report "Mon Nov  2 12:00:00 UTC 2026" "120" "success"
    = Some performance
    /\ weekly_report "Mon Nov  2 12:00:00 UTC 2026" "2" = Some weekly
    /\ sh performance {["newrelic.js" := "exports.config = {}"]} !! "newrelic.js"
       = ({["newrelic.js" := "exports.config = {}"]} : files) !! "newrelic.js"
    /\ sh weekly {["newrelic.js" := "exports.config = {}"]} !! "newrelic.js"
       = ({["newrelic.js" := "exports.config = {}"]} : files) !! "newrelic.js".
Proof.
  apply (report_scripts_write_one_file
           "Mon Nov  2 12:00:00 UTC 2026" "120" "success" "2" "newrelic.js");
    [reflexivity | reflexivity | reflexivity | discriminate].
Defined.

End ReportScope.
